(** * TxQuery: the transaction-history query engine

    A shallow embedding of [business-logic/archive/tx-query.js] (class
    [TxQuery], the [typeMapping] table and [enforceArray]) together with
    the properties of its filter pipeline, search request builder and
    single-record lookup.

    JavaScript values are modelled by the small universe [Js.Val]; Numbers
    are the integral ones (exact below 2^53) and BigInts are [Z].  Strings
    are sequences of code units below 256. *)

From Stdlib Require Import ZArith List String Ascii Bool Lia DecimalString.
Import ListNotations.
Local Open Scope string_scope.
Local Open Scope Z_scope.

(** ** JavaScript values and the built-ins the class relies on *)

Module Js.

#[warnings="-register-all"]
Inductive Val : Type :=
| VUndefined
| VStr (s : string)
| VNum (n : Z)
| VArr (l : list Val)
| VObj.

(** [!v] is [negb (truthy v)]. *)
Definition truthy (v : Val) : bool :=
  match v with
  | VUndefined => false
  | VStr s => negb (s =? "")%string
  | VNum n => negb (n =? 0)
  | VArr _ => true
  | VObj => true
  end.

Definition string_of_Z (n : Z) : string := NilZero.string_of_int (Z.to_int n).

(** The double-quote character, used inside error messages. *)
Definition dquote : string := String (ascii_of_nat 34) EmptyString.

(** [String(v)]: arrays are joined with commas, holes print as empty. *)
Fixpoint ToString (v : Val) : string :=
  match v with
  | VUndefined => "undefined"
  | VStr s => s
  | VNum n => string_of_Z n
  | VArr l =>
      (fix join (l : list Val) : string :=
         match l with
         | [] => ""
         | x :: r =>
             let sx := match x with VUndefined => "" | _ => ToString x end in
             match r with
             | [] => sx
             | _ :: _ => sx ++ "," ++ join r
             end
         end) l
  | VObj => "[object Object]"
  end.

(** [v instanceof Array ? v : [v]] *)
Definition enforceArray (value : Val) : list Val :=
  match value with
  | VArr l => l
  | _ => [value]
  end.

Definition isStrWhiteSpaceChar (c : ascii) : bool :=
  let n := N_of_ascii c in
  ((n =? 9) || (n =? 10) || (n =? 11) || (n =? 12) || (n =? 13)
   || (n =? 32) || (n =? 160))%N.

(** Value of a character read as a digit in bases up to 36. *)
Definition digitValue (c : ascii) : option Z :=
  let n := Z.of_N (N_of_ascii c) in
  if (48 <=? n) && (n <=? 57) then Some (n - 48)
  else if (97 <=? n) && (n <=? 122) then Some (n - 87)
  else if (65 <=? n) && (n <=? 90) then Some (n - 55)
  else None.

Definition isDigit (radix : Z) (c : ascii) : option Z :=
  match digitValue c with
  | Some d => if d <? radix then Some d else None
  | None => None
  end.

Fixpoint skipWhiteSpace (s : string) : string :=
  match s with
  | EmptyString => EmptyString
  | String c r => if isStrWhiteSpaceChar c then skipWhiteSpace r else s
  end.

Fixpoint trimEnd (s : string) : string :=
  match s with
  | EmptyString => EmptyString
  | String c r =>
      let r' := trimEnd r in
      if isStrWhiteSpaceChar c && (r' =? "")%string then EmptyString
      else String c r'
  end.

(** Longest prefix of digits; [acc] is [None] until a digit has been read. *)
Fixpoint digitsPrefix (radix : Z) (s : string) (acc : option Z) : option Z :=
  match s with
  | EmptyString => acc
  | String c r =>
      match isDigit radix c with
      | Some d =>
          digitsPrefix radix r
            (Some (radix * match acc with Some a => a | None => 0 end + d))
      | None => acc
      end
  end.

(** The whole string must be digits, and at least one of them. *)
Fixpoint allDigits (radix : Z) (s : string) (acc : option Z) : option Z :=
  match s with
  | EmptyString => acc
  | String c r =>
      match isDigit radix c with
      | Some d =>
          allDigits radix r
            (Some (radix * match acc with Some a => a | None => 0 end + d))
      | None => None
      end
  end.

(** [parseInt(s, 10)]; [None] is NaN, and -0 is identified with 0. *)
Definition parseInt10 (s : string) : option Z :=
  let s := skipWhiteSpace s in
  match s with
  | String "-" r => option_map Z.opp (digitsPrefix 10 r None)
  | String "+" r => digitsPrefix 10 r None
  | _ => digitsPrefix 10 s None
  end.

Definition parseInt (v : Val) : option Z := parseInt10 (ToString v).

(** [BigInt(s)] on a string: [None] stands for the SyntaxError. *)
Definition StringToBigInt (s : string) : option Z :=
  let t := trimEnd (skipWhiteSpace s) in
  match t with
  | EmptyString => Some 0
  | String "-" r => option_map Z.opp (allDigits 10 r None)
  | String "+" r => allDigits 10 r None
  | String "0" (String p r) =>
      if ((p =? "x") || (p =? "X"))%char then allDigits 16 r None
      else if ((p =? "o") || (p =? "O"))%char then allDigits 8 r None
      else if ((p =? "b") || (p =? "B"))%char then allDigits 2 r None
      else allDigits 10 t None
  | _ => allDigits 10 t None
  end.

(** [BigInt(v)]; [None] stands for a thrown SyntaxError or TypeError. *)
Definition ToBigInt (v : Val) : option Z :=
  match v with
  | VUndefined => None
  | VStr s => StringToBigInt s
  | VNum n => Some n
  | VArr _ | VObj => StringToBigInt (ToString v)
  end.

(** [x >>> 0] on an integral Number. *)
Definition ToUint32 (x : Z) : Z := x mod 2 ^ 32.

(** The Number an arithmetic operation yields when its exact result is
    the integer [x]: [x] itself up to 2^53, beyond that the nearest
    integer with a 53-bit significand, ties going to the even one. *)
Definition roundToDouble (x : Z) : Z :=
  let m := Z.abs x in
  if m <? 2 ^ 53 then x
  else
    let e := Z.log2 m - 52 in
    let q := m / 2 ^ e in
    let r := m mod 2 ^ e in
    let half := 2 ^ (e - 1) in
    let q' := if r <? half then q
              else if half <? r then q + 1
              else if Z.even q then q else q + 1 in
    Z.sgn x * (q' * 2 ^ e).

(** Plain objects with string keys, in insertion order. *)
Definition Obj := list (string * Val).

Definition get (o : Obj) (k : string) : Val :=
  match find (fun kv => (fst kv =? k)%string) o with
  | Some kv => snd kv
  | None => VUndefined
  end.

Fixpoint set (o : Obj) (k : string) (v : Val) : Obj :=
  match o with
  | [] => [(k, v)]
  | (k', v') :: r =>
      if (k' =? k)%string then (k, v) :: r else (k', v') :: set r k v
  end.

Definition remove (o : Obj) (k : string) : Obj :=
  filter (fun kv => negb (fst kv =? k)%string) o.

(** [{...a, ...b}] *)
Definition spread (a b : Obj) : Obj :=
  fold_left (fun acc kv => set acc (fst kv) (snd kv)) b a.

(** A [Set] keeps its elements in insertion order, without repetition. *)
Definition set_add {A : Type} (eqb : A -> A -> bool) (s : list A) (x : A)
  : list A :=
  if existsb (eqb x) s then s else (s ++ [x])%list.

End Js.

Import Js.

(** ** Failures and outcomes *)

Inductive Error : Type :=
| ValidationError (field message : string)
| NotFound (message : string)
| TypeError (message : string)
| SyntaxError (message : string)
| StoreFailure (message : string).

Inductive Result (A : Type) : Type :=
| Ok (a : A)
| Throw (e : Error).
Arguments Ok {A} a.
Arguments Throw {A} e.

Definition isValidationOn (field : string) {A} (r : Result A) : Prop :=
  exists message, r = Throw (ValidationError field message).

(** The stores behind the symbolic filters. *)
Module Store.
Inductive t : Type := accounts | assets | liquidity_pools | memos.
End Store.

(** ** Range constraint resolver *)

Module IdConstraints.

(** Modelled from the spec: the class of [utils/id-constraints], which is
    not among the sources; a pair of optional inclusive bounds. *)
Record t : Type := { bottom : option Z; top : option Z }.

(** Modelled from the spec: a new resolver holds no bound. *)
Definition empty : t := {| bottom := None; top := None |}.

(** Modelled from the spec: [addBottom(value)] of the missing class sets
    bottom to the maximum of the present bottom, if any, and [value]. *)
Definition addBottomConstraint (value : Z) (c : t) : t :=
  {| bottom := Some (match bottom c with
                     | Some b => Z.max b value
                     | None => value
                     end);
     top := top c |}.

(** Modelled from the spec: [addTop(value)] of the missing class sets top
    to the minimum of the present top, if any, and [value]. *)
Definition addTopConstraint (value : Z) (c : t) : t :=
  {| bottom := bottom c;
     top := Some (match top c with
                  | Some b => Z.min b value
                  | None => value
                  end) |}.

(** Modelled from the spec: [isEmpty] of the missing class, neither bound
    set. *)
Definition isEmpty (c : t) : bool :=
  match bottom c, top c with
  | None, None => true
  | _, _ => false
  end.

(** Modelled from the spec: [isUnfeasible] of the missing class, bottom
    above top once both are set. *)
Definition isUnfeasible (c : t) : bool :=
  match bottom c, top c with
  | Some b, Some t => t <? b
  | _, _ => false
  end.

(** Modelled from the spec: [resolve()] of the missing class returns the
    bounds that were set, as [gte] and [lte]. *)
Definition resolve (c : t) : option Z * option Z := (bottom c, top c).

End IdConstraints.

(** ** Data *)

Inductive Order : Type := asc | desc.

Definition orderName (o : Order) : string :=
  match o with asc => "asc" | desc => "desc" end.

(** A value inside a [terms] predicate: a number, a string, or (see
    [typeMapping_get]) a member inherited from [Object.prototype]. *)
Inductive Term : Type :=
| TNum (n : Z)
| TStr (s : string)
| TProto (name : string).

Definition Term_eqb (a b : Term) : bool :=
  match a, b with
  | TNum x, TNum y => x =? y
  | TStr x, TStr y => (x =? y)%string
  | TProto x, TProto y => (x =? y)%string
  | _, _ => false
  end.

Inductive Filter : Type :=
| terms (field : string) (values : list Term)
| range (field : string) (bounds : option Z * option Z).

Inductive Query : Type :=
| bool_filter (filter : list Filter).

Module SearchRequest.
Record t : Type := {
  index : string;
  _source : bool;
  size : Z;
  timeout : string;
  track_total_hits : Z;
  sort : list (string * Order);
  query : Query;
  fields : list string
}.
End SearchRequest.

Definition Buffer := list Byte.byte.

(** The 64-bit identifier object of an archive record; the class reads
    its [high] word and prints it. *)
Module TxId.
Record t : Type := { high : Z; low : Z }.
End TxId.

Module ArchiveTx.
Record t : Type := {
  id : TxId.t;
  hash : Buffer;
  body : Buffer;
  meta : Buffer;
  result : Buffer;
  _id : Val
}.
End ArchiveTx.

Module Ledger.
Record t : Type := { _id : Z; ts : Z }.
End Ledger.

Module TxQueryResponse.
Record t : Type := {
  id : string;
  hash : string;
  ledger : option Z;
  ts : option Z;
  body : string;
  meta : string;
  result : string;
  paging_token : option string
}.
End TxQueryResponse.

(** Modelled from the spec: [preparePagedData] of [api-helpers], the
    paging envelope builder [wrap(basePath, normalizedParams, records)],
    kept as an uninterpreted constructor. *)
Inductive MultiRows : Type :=
| preparePagedData (basePath : string) (params : Obj)
    (records : list TxQueryResponse.t).

(** What a call hands back to code that may or may not await it. *)
Inductive Returned (A : Type) : Type :=
| Plain (a : A)
| Promise (settled : Result A).
Arguments Plain {A} a.
Arguments Promise {A} settled.

Inductive Event : Type :=
| Lookup (store : Store.t) (matched : Result (list Z))
| ElasticSearch (request : SearchRequest.t)
| ArchiveFetch (ids : list Z)
| ArchiveFetchOne (idOrHash : string)
| LedgersFetch (keys : list Val)
| ResolveTimestamp (timestamp : option Z) (sequence : Result Z).

(** ** Effects: a log of the store and index calls, and an outcome *)

Definition M (A : Type) : Type := list Event * Result A.

Definition ret {A} (a : A) : M A := ([], Ok a).

Definition bind {A B} (m : M A) (f : A -> M B) : M B :=
  match snd m with
  | Ok a => ((fst m ++ fst (f a))%list, snd (f a))
  | Throw e => (fst m, Throw e)
  end.

Definition lift {A} (r : Result A) : M A := ([], r).

Definition emit (e : Event) : M unit := ([e], Ok tt).

(** [Promise.all] over two calls already started: both have run, the
    first failure wins. *)
Definition both {A B} (a : M A) (b : M B) : M (A * B) :=
  ((fst a ++ fst b)%list,
   match snd a, snd b with
   | Ok x, Ok y => Ok (x, y)
   | Throw e, _ => Throw e
   | Ok _, Throw e => Throw e
   end).

Definition trace {A} (m : M A) : list Event := fst m.
Definition outcome {A} (m : M A) : Result A := snd m.

Notation "x <- m ;; k" := (bind m (fun x => k))
  (at level 61, m at next level, right associativity).
Notation "' p <- m ;; k" := (bind m (fun x => match x with p => k end))
  (at level 61, p pattern, m at next level, right associativity).

Fixpoint mapR {A B} (f : A -> Result B) (l : list A) : Result (list B) :=
  match l with
  | [] => Ok []
  | x :: r =>
      match f x with
      | Throw e => Throw e
      | Ok y =>
          match mapR f r with
          | Throw e => Throw e
          | Ok ys => Ok (y :: ys)
          end
      end
  end.

(** [await v] *)
Definition await {A} (v : Returned A) : Result A :=
  match v with
  | Plain a => Ok a
  | Promise settled => settled
  end.

(** [const [x] = v]: arrays are iterable, promises are not. *)
Definition destructureFirst {A} (v : Returned (list A)) : Result (option A) :=
  match v with
  | Plain l => Ok (hd_error l)
  | Promise _ => Throw (TypeError "object is not iterable")
  end.

(** ** The collaborators of the class

    Everything the class requires from other modules: validators,
    normalizers, resolvers, the stores, the index and the configuration.
    A call that the class awaits is given by its settled outcome;
    [fetchLedgers] is used both with and without [await] and keeps its
    returned value. *)

Module Env.
Record t : Type := {
  validateNetwork : string -> Result unit;
  opIndex : string -> string;
  normalizeLimit : Val -> Z;
  normalizeOrder : string -> Z;
  resolveSequenceFromTimestamp : string -> option Z -> Result Z;
  isValidEd25519PublicKey : Val -> bool;
  findAccounts : string -> list Val -> Result (list Z);
  toFQAN : Val -> option string;
  findAssets : string -> list string -> Result (list Z);
  validateOfferId : Val -> string -> Result string;
  validatePoolId : Val -> Result unit;
  findPools : string -> list Val -> Result (list Z);
  fetchMemoIds : string -> list Val -> Result (list Z);
  search : SearchRequest.t -> Result (list string);
  fetchArchiveTransactions : string -> list Z -> Z -> Result (list ArchiveTx.t);
  fetchSingleArchiveTransaction : string -> string -> Result (option ArchiveTx.t);
  fetchLedgers : string -> list Val -> Returned (list Ledger.t);
  idToString : TxId.t -> string;
  toHex : Buffer -> string;
  toBase64 : Buffer -> string
}.
End Env.

(** ** The class *)

Record TxQuery : Type := {
  network : string;
  basePath : string;
  cursor : Val;
  order : Order;
  limit : Z;
  constraints : IdConstraints.t;
  params : Obj;
  isUnfeasible : bool
}.

Definition setConstraints (q : TxQuery) (c : IdConstraints.t) : TxQuery :=
  {| network := network q; basePath := basePath q; cursor := cursor q;
     order := order q; limit := limit q; constraints := c;
     params := params q; isUnfeasible := isUnfeasible q |}.

Definition setUnfeasible (q : TxQuery) : TxQuery :=
  {| network := network q; basePath := basePath q; cursor := cursor q;
     order := order q; limit := limit q; constraints := constraints q;
     params := params q; isUnfeasible := true |}.

(** [typeMapping] *)
Inductive TypeEntry : Type :=
| Code (n : Z)
| Group (codes : list Z).

Definition typeMapping : list (string * TypeEntry) :=
  [ ("payments", Group [0; 1; 2; 8; 9; 13; 14; 15; 19; 20]);
    ("trustlines", Group [6; 7; 21]);
    ("dex", Group [3; 4; 12; 22; 23]);
    ("settings", Group [0; 5; 6; 7; 8; 9; 10; 11; 16; 17; 18; 21]);
    ("createAccount", Code 0);
    ("payment", Code 1);
    ("pathPaymentStrictReceive", Code 2);
    ("pathPaymentStrictSend", Code 13);
    ("createPassiveSellOffer", Code 4);
    ("manageSellOffer", Code 3);
    ("manageBuyOffer", Code 12);
    ("setOptions", Code 5);
    ("changeTrust", Code 6);
    ("allowTrust", Code 7);
    ("accountMerge", Code 8);
    ("inflation", Code 9);
    ("manageData", Code 10);
    ("bumpSequence", Code 11);
    ("createClaimableBalance", Code 14);
    ("claimClaimableBalance", Code 15);
    ("beginSponsoringFutureReserves", Code 16);
    ("endSponsoringFutureReserves", Code 17);
    ("revokeSponsorship", Code 18);
    ("clawback", Code 19);
    ("clawbackClaimableBalance", Code 20);
    ("setTrustLineFlags", Code 21);
    ("liquidityPoolDeposit", Code 22);
    ("liquidityPoolWithdraw", Code 23) ].

(** The table is an object literal, so a property read that misses its
    own keys goes on to [Object.prototype]. *)
Definition ObjectPrototypeKeys : list string :=
  [ "constructor"; "__defineGetter__"; "__defineSetter__"; "hasOwnProperty";
    "__lookupGetter__"; "__lookupSetter__"; "isPrototypeOf";
    "propertyIsEnumerable"; "toString"; "valueOf"; "__proto__";
    "toLocaleString" ].

Inductive Mapped : Type :=
| MUndefined
| MOwn (e : TypeEntry)
| MInherited (name : string).

(** [typeMapping[value]] *)
Definition typeMapping_get (value : string) : Mapped :=
  match find (fun kv => (fst kv =? value)%string) typeMapping with
  | Some kv => MOwn (snd kv)
  | None =>
      if existsb (String.eqb value) ObjectPrototypeKeys
      then MInherited value
      else MUndefined
  end.

Definition parseOrder (v : Val) : option Order :=
  match v with
  | VStr s =>
      if (s =? "asc")%string then Some asc
      else if (s =? "desc")%string then Some desc
      else None
  | _ => None
  end.

Definition inRange (value : Z) : bool := (0 <=? value) && (value <=? 23).

(** One round of the loop of [addTypesFilter]; a Number is [Some n], NaN
    is [None]. *)
Definition addType (searchTypes : list Term) (value : Val)
  : Result (list Term) :=
  let numeric (n : option Z) :=
    match n with
    | Some n =>
        if inRange n then Ok (set_add Term_eqb searchTypes (TNum n))
        else Throw (ValidationError "type"
                      ("Invalid type filter: " ++ string_of_Z n ++ "."))
    | None => Throw (ValidationError "type" "Invalid type filter: NaN.")
    end in
  match value with
  | VStr s =>
      match typeMapping_get s with
      | MOwn (Group mapped) =>
          Ok (fold_left (fun st type => set_add Term_eqb st (TNum type))
                mapped searchTypes)
      | MOwn (Code mapped) => Ok (set_add Term_eqb searchTypes (TNum mapped))
      | MInherited name => Ok (set_add Term_eqb searchTypes (TProto name))
      | MUndefined => numeric (parseInt10 s)
      end
  | VNum n => numeric (Some n)
  | _ => Throw (ValidationError "type"
                  ("Invalid type filter: " ++ ToString value ++ "."))
  end.

Fixpoint addTypes (type : list Val) (searchTypes : list Term)
  : Result (list Term) :=
  match type with
  | [] => Ok searchTypes
  | value :: rest =>
      match addType searchTypes value with
      | Ok searchTypes' => addTypes rest searchTypes'
      | Throw e => Throw e
      end
  end.

Definition accountRoles : list (string * string) :=
  [("account", "accounts"); ("source", "source");
   ("destination", "destination")].

Definition assetRoles : list (string * string) :=
  [("asset", "assets"); ("src_asset", "srcAsset");
   ("dest_asset", "desAsset")].

Section Methods.

Variable E : Env.t.

Definition constructor (network basePath : string) (query : Obj)
  : Result TxQuery :=
  let order := match get query "order" with
               | VUndefined => VStr "desc"
               | v => v
               end in
  let cursor := get query "cursor" in
  let limit := get query "limit" in
  let extraParams := remove (remove (remove query "order") "cursor") "limit" in
  match Env.validateNetwork E network with
  | Throw e => Throw e
  | Ok _ =>
      match parseOrder order with
      | None => Throw (ValidationError "order" "Invalid sorting order")
      | Some order =>
          Ok {| network := network; basePath := basePath; cursor := cursor;
                order := order; limit := Env.normalizeLimit E limit;
                constraints := IdConstraints.empty; params := extraParams;
                isUnfeasible := false |}
      end
  end.

(** The calls inside [try] cannot throw except for [BigInt]: the resolver
    has no error conditions. *)
Definition addCursorFilter (q : TxQuery) : Result TxQuery :=
  if negb (truthy (cursor q)) then Ok q
  else
    match ToBigInt (cursor q) with
    | Some cursor =>
        if cursor <? 0 then Ok q
        else
          match order q with
          | asc => Ok (setConstraints q
                         (IdConstraints.addBottomConstraint (cursor + 1)
                            (constraints q)))
          | desc => Ok (setConstraints q
                          (IdConstraints.addTopConstraint (cursor - 1)
                             (constraints q)))
          end
    | None =>
        Throw (ValidationError "cursor"
                 ("Invalid paging cursor: " ++ dquote ++ ToString (cursor q)
                  ++ dquote ++ "."))
    end.

(** Both resolutions are started before either is awaited, so both
    calls are issued even when the first one fails; the two callbacks
    touch different bounds, so their order does not matter (see
    [addTop_addBottom_comm]).  [sequence + 1] is an addition of Numbers. *)
Definition addTsFilter (q : TxQuery) : M TxQuery :=
  let from := get (params q) "from" in
  let to := get (params q) "to" in
  let resolve (timestamp : Val) : M (option (Result Z)) :=
    match timestamp with
    | VUndefined => ret None
    | _ =>
        let sequence :=
          Env.resolveSequenceFromTimestamp E (network q)
            (parseInt timestamp) in
        _ <- emit (ResolveTimestamp (parseInt timestamp) sequence) ;;
        ret (Some sequence)
    end in
  toPromise <- resolve to ;;
  fromPromise <- resolve from ;;
  lift
    match toPromise, fromPromise with
    | Some (Throw e), _ => Throw e
    | _, Some (Throw e) => Throw e
    | toSequence, fromSequence =>
        let c := constraints q in
        let c := match toSequence with
                 | Some (Ok sequence) =>
                     IdConstraints.addTopConstraint
                       (Z.shiftl (ToUint32 (roundToDouble (sequence + 1))) 32)
                       c
                 | _ => c
                 end in
        let c := match fromSequence with
                 | Some (Ok sequence) =>
                     IdConstraints.addBottomConstraint
                       (Z.shiftl (ToUint32 sequence) 32) c
                 | _ => c
                 end in
        Ok (setConstraints q c)
    end.

Definition addTypesFilter (q : TxQuery) (filters : list Filter)
  : Result (list Filter) :=
  let type := get (params q) "type" in
  if negb (truthy type) then Ok filters
  else
    let type := enforceArray type in
    if (30 <? List.length type)%nat
    then Throw (ValidationError "type" "Too many type filters.")
    else
      match addTypes type [] with
      | Throw e => Throw e
      | Ok searchTypes =>
          match searchTypes with
          | [] => Ok filters
          | _ :: _ => Ok (filters ++ [terms "type" searchTypes])%list
          end
      end.

Fixpoint addAssetFilter_roles (roles : list (string * string))
  (q : TxQuery) (filters : list Filter) : M (TxQuery * list Filter) :=
  match roles with
  | [] => ret (q, filters)
  | (param, key) :: rest =>
      let assets := get (params q) param in
      if negb (truthy assets) then addAssetFilter_roles rest q filters
      else
        let assets := enforceArray assets in
        if (List.length assets =? 0)%nat then addAssetFilter_roles rest q filters
        else if (10 <? List.length assets)%nat
        then lift (Throw (ValidationError param "Too many asset conditions."))
        else
          assets <- lift (mapR (fun a =>
                       match Env.toFQAN E a with
                       | Some fqan => Ok fqan
                       | None =>
                           Throw (ValidationError param
                                    ("Invalid asset identifier: "
                                     ++ ToString a ++ "."))
                       end) assets) ;;
          let matchedAssets := Env.findAssets E (network q) assets in
          _ <- emit (Lookup Store.assets matchedAssets) ;;
          assetsFilter <- lift matchedAssets ;;
          match assetsFilter with
          | [] => addAssetFilter_roles rest (setUnfeasible q) filters
          | _ :: _ =>
              addAssetFilter_roles rest q
                (filters ++ [terms key (map TNum assetsFilter)])%list
          end
  end.

Definition addAssetFilter := addAssetFilter_roles assetRoles.

Fixpoint addAccountFilter_roles (roles : list (string * string))
  (q : TxQuery) (filters : list Filter) : M (TxQuery * list Filter) :=
  match roles with
  | [] => ret (q, filters)
  | (param, key) :: rest =>
      let addresses := get (params q) param in
      if negb (truthy addresses) then addAccountFilter_roles rest q filters
      else
        let addresses := enforceArray addresses in
        if (List.length addresses =? 0)%nat
        then addAccountFilter_roles rest q filters
        else if (10 <? List.length addresses)%nat
        then lift (Throw (ValidationError param
                            "Too many account conditions."))
        else
          match find (fun address =>
                        negb (Env.isValidEd25519PublicKey E address))
                  addresses with
          | Some address =>
              lift (Throw (ValidationError param
                             ("Invalid account address: "
                              ++ ToString address ++ ".")))
          | None =>
              let matchedAccounts :=
                Env.findAccounts E (network q) addresses in
              _ <- emit (Lookup Store.accounts matchedAccounts) ;;
              accountsFilter <- lift matchedAccounts ;;
              match accountsFilter with
              | [] => addAccountFilter_roles rest (setUnfeasible q) filters
              | _ :: _ =>
                  addAccountFilter_roles rest q
                    (filters ++ [terms key (map TNum accountsFilter)])%list
              end
          end
  end.

Definition addAccountFilter := addAccountFilter_roles accountRoles.

Definition addOfferFilter (q : TxQuery) (filters : list Filter)
  : Result (list Filter) :=
  let offers := get (params q) "offer" in
  if negb (truthy offers) then Ok filters
  else
    let offers := enforceArray offers in
    if (10 <? List.length offers)%nat
    then Throw (ValidationError "offer" "Too many offer conditions.")
    else
      match mapR (fun offer => Env.validateOfferId E offer "offer") offers with
      | Throw e => Throw e
      | Ok [] => Ok filters
      | Ok offers => Ok (filters ++ [terms "offer" (map TStr offers)])%list
      end.

Definition addPoolFilter (q : TxQuery) (filters : list Filter)
  : M (TxQuery * list Filter) :=
  let pools := get (params q) "pool" in
  if negb (truthy pools) then ret (q, filters)
  else
    let pools := enforceArray pools in
    if (10 <? List.length pools)%nat
    then lift (Throw (ValidationError "pool" "Too many pool conditions."))
    else
      _ <- lift (mapR (Env.validatePoolId E) pools) ;;
      let matchedPools := Env.findPools E (network q) pools in
      _ <- emit (Lookup Store.liquidity_pools matchedPools) ;;
      matchedPools <- lift matchedPools ;;
      match matchedPools with
      | [] => ret (setUnfeasible q, filters)
      | _ :: _ =>
          ret (q, (filters ++ [terms "pool" (map TNum matchedPools)])%list)
      end.

Definition addMemoFilter (q : TxQuery) (filters : list Filter)
  : M (TxQuery * list Filter) :=
  let memos := get (params q) "memo" in
  if negb (truthy memos) then ret (q, filters)
  else
    let memos := enforceArray memos in
    if (List.length memos =? 0)%nat then ret (q, filters)
    else if (10 <? List.length memos)%nat
    then lift (Throw (ValidationError "memo" "Too many memo conditions."))
    else
      let memoIds := Env.fetchMemoIds E (network q) memos in
      _ <- emit (Lookup Store.memos memoIds) ;;
      memoIds <- lift memoIds ;;
      match memoIds with
      | [] => ret (setUnfeasible q, filters)
      | _ :: _ => ret (q, (filters ++ [terms "memo" (map TNum memoIds)])%list)
      end.

Definition addIdRangeFilter (q : TxQuery) (filters : list Filter)
  : TxQuery * list Filter :=
  let constraints := constraints q in
  if IdConstraints.isEmpty constraints then (q, filters)
  else if IdConstraints.isUnfeasible constraints
  then (setUnfeasible q, filters)
  else (q, (filters ++ [range "id" (IdConstraints.resolve constraints)])%list).

Definition buildQuery (q : TxQuery) (filter : list Filter)
  : SearchRequest.t :=
  let opIndex := Env.opIndex E (network q) in
  {| SearchRequest.index := opIndex;
     SearchRequest._source := false;
     SearchRequest.size := limit q;
     SearchRequest.timeout := "5s";
     SearchRequest.track_total_hits := limit q;
     SearchRequest.sort := [("id", order q)];
     SearchRequest.query := bool_filter filter;
     SearchRequest.fields := ["id"] |}.

(** [res[ledger._id] = ledger] *)
Fixpoint ledgersSet (res : list (Z * Ledger.t)) (ledger : Ledger.t)
  : list (Z * Ledger.t) :=
  match res with
  | [] => [(Ledger._id ledger, ledger)]
  | (k, l) :: r =>
      if k =? Ledger._id ledger then (k, ledger) :: r
      else (k, l) :: ledgersSet r ledger
  end.

(** [ledgers[sequence]] *)
Definition ledgersGet (res : list (Z * Ledger.t)) (sequence : Z)
  : option Ledger.t :=
  option_map snd (find (fun kl => fst kl =? sequence) res).

Definition fetchLedgersInfo (q : TxQuery) (txIds : list Z)
  : M (list (Z * Ledger.t)) :=
  let ledgerIds :=
    fold_left (fun st id => set_add Z.eqb st (Z.shiftr id 32)) txIds [] in
  let keys := map VNum ledgerIds in
  _ <- emit (LedgersFetch keys) ;;
  ledgers <- lift (await (Env.fetchLedgers E (network q) keys)) ;;
  ret (fold_left ledgersSet ledgers []).

Definition prepareResponseEntry (tx : ArchiveTx.t) (ledger : option Ledger.t)
  (addPagingToken : bool) : TxQueryResponse.t :=
  let id := Env.idToString E (ArchiveTx.id tx) in
  {| TxQueryResponse.id := id;
     TxQueryResponse.hash := Env.toHex E (ArchiveTx.hash tx);
     TxQueryResponse.ledger := option_map Ledger._id ledger;
     TxQueryResponse.ts := option_map Ledger.ts ledger;
     TxQueryResponse.body := Env.toBase64 E (ArchiveTx.body tx);
     TxQueryResponse.meta := Env.toBase64 E (ArchiveTx.meta tx);
     TxQueryResponse.result := Env.toBase64 E (ArchiveTx.result tx);
     TxQueryResponse.paging_token := if addPagingToken then Some id else None
  |}.

Definition Step : Type := TxQuery -> list Filter -> M (TxQuery * list Filter).

Definition pipeline : list Step :=
  [ (fun q filter => q' <- lift (addCursorFilter q) ;; ret (q', filter));
    (fun q filter => q' <- addTsFilter q ;; ret (q', filter));
    (fun q filter => ret (addIdRangeFilter q filter));
    (fun q filter => filter' <- lift (addTypesFilter q filter) ;;
                     ret (q, filter'));
    addAccountFilter;
    addAssetFilter;
    (fun q filter => filter' <- lift (addOfferFilter q filter) ;;
                     ret (q, filter'));
    addPoolFilter;
    addMemoFilter ].

(** The loop over the pipeline; [None] is the early [return []]. *)
Fixpoint runPipeline (steps : list Step) (q : TxQuery) (filter : list Filter)
  : M (option (TxQuery * list Filter)) :=
  match steps with
  | [] => ret (Some (q, filter))
  | step :: rest =>
      '(q', filter') <- step q filter ;;
      if isUnfeasible q' then ret None else runPipeline rest q' filter'
  end.

Definition fetchData (q : TxQuery) : M (list TxQueryResponse.t) :=
  res <- runPipeline pipeline q [] ;;
  match res with
  | None => ret []
  | Some (q, filter) =>
      let queryRequest := buildQuery q filter in
      _ <- emit (ElasticSearch queryRequest) ;;
      hits <- lift (Env.search E queryRequest) ;;
      ids <- lift (mapR (fun _id =>
                     match StringToBigInt _id with
                     | Some id => Ok id
                     | None => Throw (SyntaxError "Cannot convert to a BigInt")
                     end) hits) ;;
      match ids with
      | [] => ret []
      | _ :: _ =>
          '(transactions, ledgers) <-
            both
              (_ <- emit (ArchiveFetch ids) ;;
               lift (Env.fetchArchiveTransactions E (network q) ids
                       (Env.normalizeOrder E (orderName (order q)))))
              (fetchLedgersInfo q ids) ;;
          ret (map (fun tx =>
                      prepareResponseEntry tx
                        (ledgersGet ledgers (TxId.high (ArchiveTx.id tx)))
                        true) transactions)
      end
  end.

(** The object literal handed to the envelope builder, written out in
    both [emptyResponse] and [toArray]. *)
Definition pagedParams (q : TxQuery) : Obj :=
  spread [("sort", VStr "id"); ("order", VStr (orderName (order q)));
          ("cursor", cursor q); ("limit", VNum (limit q))]
    (params q).

Definition emptyResponse (q : TxQuery) : MultiRows :=
  preparePagedData (basePath q) (pagedParams q) [].

Definition toArray (q : TxQuery) : M MultiRows :=
  if isUnfeasible q || IdConstraints.isUnfeasible (constraints q)
  then ret (emptyResponse q)
  else
    records <- fetchData q ;;
    ret (preparePagedData (basePath q) (pagedParams q) records).

Definition fetchTx (network : string) (txIdOrHash : Val)
  : M TxQueryResponse.t :=
  match txIdOrHash with
  | VStr idOrHash =>
      if (64 <? String.length idOrHash)%nat
      then lift (Throw (ValidationError "id" "Invalid transaction id or hash"))
      else
        _ <- lift (Env.validateNetwork E network) ;;
        _ <- emit (ArchiveFetchOne idOrHash) ;;
        tx <- lift (Env.fetchSingleArchiveTransaction E network idOrHash) ;;
        match tx with
        | None =>
            lift (Throw (NotFound ("Transaction " ++ idOrHash
                                   ++ " not found on the " ++ network
                                   ++ " ledger")))
        | Some tx =>
            let keys := [ArchiveTx._id tx] in
            _ <- emit (LedgersFetch keys) ;;
            ledger <- lift (destructureFirst
                              (Env.fetchLedgers E network keys)) ;;
            ret (prepareResponseEntry tx ledger false)
        end
  | _ => lift (Throw (ValidationError "id" "Invalid transaction id or hash"))
  end.

End Methods.

(** ** A concrete deployment, on which the class can be run *)

Module Demo.

Definition tx (i : Z) : ArchiveTx.t :=
  {| ArchiveTx.id := {| TxId.high := Z.shiftr i 32;
                        TxId.low := Z.land i (2 ^ 32 - 1) |};
     ArchiveTx.hash := []; ArchiveTx.body := []; ArchiveTx.meta := [];
     ArchiveTx.result := []; ArchiveTx._id := VNum i |}.

Definition ledgers : list Ledger.t :=
  [ {| Ledger._id := 100; Ledger.ts := 1700000000 |} ].

Definition isKey (k : Z) (v : Val) : bool :=
  match v with VNum n => n =? k | _ => false end.

(** An address the account store knows, and one it does not. *)
Definition knownAccount : string :=
  "GCEZWKCA5VLDNRLN3RPRJMRZOX3Z6G5CHCGSNFHEYVXM3XOJMDS674JZ".

Definition unknownAccount : string :=
  "GAAAAAAAAAAAAAAAAAAAAAAAAAAAAAAAAAAAAAAAAAAAAAAAAAAAAWHF".

Definition foundLedgers (keys : list Val) : list Ledger.t :=
  filter (fun l => existsb (isKey (Ledger._id l)) keys) ledgers.

Definition envWith
  (fetchLedgers : string -> list Val -> Returned (list Ledger.t)) : Env.t :=
  {| Env.validateNetwork := fun n =>
       if (n =? "public")%string then Ok tt
       else Throw (ValidationError "network" "Unknown network");
     Env.opIndex := fun n => "ops_" ++ n;
     Env.normalizeLimit := fun v =>
       match parseInt v with
       | Some n => Z.max 1 (Z.min n 200)
       | None => 10
       end;
     Env.normalizeOrder := fun o => if (o =? "asc")%string then 1 else -1;
     Env.resolveSequenceFromTimestamp := fun _ t =>
       match t with
       | Some t => Ok (t / 5)
       | None => Throw (StoreFailure "timestamp")
       end;
     Env.isValidEd25519PublicKey := fun v =>
       match v with
       | VStr (String "G" _ as s) => (String.length s =? 56)%nat
       | _ => false
       end;
     Env.findAccounts := fun _ l =>
       Ok (if existsb (fun v => match v with
                                | VStr s => (s =? knownAccount)%string
                                | _ => false
                                end) l
           then [7] else []);
     Env.toFQAN := fun v => match v with VStr s => Some s | _ => None end;
     Env.findAssets := fun _ _ => Ok [];
     Env.validateOfferId := fun v _ =>
       match parseInt v with
       | Some n => Ok (string_of_Z n)
       | None => Throw (ValidationError "offer" "Invalid offer id")
       end;
     Env.validatePoolId := fun _ => Ok tt;
     Env.findPools := fun _ _ => Ok [];
     Env.fetchMemoIds := fun _ _ => Ok [];
     Env.search := fun _ => Ok ["429496729601"; "429496729600"];
     Env.fetchArchiveTransactions := fun _ ids _ => Ok (map tx ids);
     Env.fetchSingleArchiveTransaction := fun _ s =>
       match StringToBigInt s with
       | Some i => Ok (Some (tx i))
       | None => Ok None
       end;
     Env.fetchLedgers := fetchLedgers;
     Env.idToString := fun i => string_of_Z (TxId.high i * 2 ^ 32 + TxId.low i);
     Env.toHex := fun _ => "";
     Env.toBase64 := fun _ => "" |}.

(** The ledger store answers with a promise, as the awaited call of
    [fetchLedgersInfo] expects. *)
Definition env : Env.t :=
  envWith (fun _ keys => Promise (Ok (foundLedgers keys))).

(** The same deployment with a ledger store that answers at once. *)
Definition syncEnv : Env.t :=
  envWith (fun _ keys => Plain (foundLedgers keys)).

(** A query object as the constructor leaves it. *)
Definition query (order : Order) (cursor : Val) (params : Obj) : TxQuery :=
  {| network := "public"; basePath := "/tx"; cursor := cursor;
     order := order; limit := 10; constraints := IdConstraints.empty;
     params := params; isUnfeasible := false |}.

End Demo.

(** ** Vocabulary of the statements *)


(** What the timestamp step learns about one of its two parameters:
    nothing when it is absent, else the resolver's answer. *)
Definition resolved (E : Env.t) (q : TxQuery) (timestamp : Val)
  : option (Result Z) :=
  match timestamp with
  | VUndefined => None
  | _ => Some (Env.resolveSequenceFromTimestamp E (network q)
                 (parseInt timestamp))
  end.

(** The resolver call the timestamp step issues for one parameter. *)
Definition resolveCalls (E : Env.t) (q : TxQuery) (timestamp : Val)
  : list Event :=
  match timestamp with
  | VUndefined => []
  | _ => [ResolveTimestamp (parseInt timestamp)
            (Env.resolveSequenceFromTimestamp E (network q)
               (parseInt timestamp))]
  end.

(** The words of the specification for a type value given as a string: a
    known mnemonic is a key of the taxonomy table, a numeric code is a
    decimal numeral of an integer from 0 to 23. *)
Definition knownMnemonic (s : string) : bool :=
  existsb (String.eqb s) (map fst typeMapping).

Definition numericCode (s : string) : bool :=
  match allDigits 10 s None with
  | Some n => inRange n
  | None => false
  end.

Definition rejectsEveryUnknownType : Prop :=
  forall (q : TxQuery) (filters : list Filter) (s : string),
    get (params q) "type" = VStr s ->
    knownMnemonic s = false -> numericCode s = false ->
    isValidationOn "type" (addTypesFilter q filters).

(** What the property read of the step resolves: the keys of the table
    and the names every object inherits. *)
Definition resolvesInTable (s : string) : bool :=
  knownMnemonic s || existsb (String.eqb s) ObjectPrototypeKeys.

(** A value the step rejects: a string that the table does not resolve
    and whose leading integer, as [parseInt] reads it, is missing or
    outside 0..23; a Number outside 0..23; anything else that is neither
    a string nor a Number. *)
Definition rejected (value : Val) : bool :=
  match value with
  | VStr s =>
      negb (resolvesInTable s)
      && match parseInt10 s with
         | Some n => negb (inRange n)
         | None => true
         end
  | VNum n => negb (inRange n)
  | _ => true
  end.

(** The request parameters of a query, which no step changes. *)
Definition sameRequest (q q' : TxQuery) : Prop :=
  network q' = network q /\ basePath q' = basePath q
  /\ cursor q' = cursor q /\ order q' = order q /\ limit q' = limit q
  /\ params q' = params q.

(** What one role loop does: it only looks up its own store, it leaves
    the request parameters alone, and once a lookup matched nothing (or
    the flag was already set) the flag is set when it returns. *)
Definition rolesSpec (store : Store.t) (m : M (TxQuery * list Filter))
  (q : TxQuery) : Prop :=
  (forall e, In e (trace m) -> exists r, e = Lookup store r)
  /\ (forall q' f',
      outcome m = Ok (q', f') ->
      sameRequest q q'
      /\ (isUnfeasible q = true \/ In (Lookup store (Ok [])) (trace m) ->
          isUnfeasible q' = true)).

(** The calls a step of the pipeline may issue: a lookup, or a
    timestamp resolution. *)
Definition pipelineCall (e : Event) : Prop :=
  (exists st r, e = Lookup st r) \/ (exists t r, e = ResolveTimestamp t r).

(** [e] is the failure that the role loop of store [st] (the account
    step or the asset step) raises on the parameters of [q]. *)
Definition roleFailure (E : Env.t) (q : TxQuery) (st : Store.t) (e : Error)
  : Prop :=
  (st = Store.accounts /\ outcome (addAccountFilter E q []) = Throw e)
  \/ (st = Store.assets /\ outcome (addAssetFilter E q []) = Throw e).

(** What every step of the pipeline guarantees: it issues lookups and
    resolutions only; it leaves the request parameters alone and has set
    the flag when one of its lookups matched nothing; and when it fails
    after such a lookup, it is a role loop failing on its own. *)
Definition stepSpec (E : Env.t) (s : Step) : Prop :=
  forall q f,
    (forall e, In e (trace (s q f)) -> pipelineCall e)
    /\ (forall q' f',
        outcome (s q f) = Ok (q', f') ->
        sameRequest q q'
        /\ (forall st, In (Lookup st (Ok [])) (trace (s q f)) ->
            isUnfeasible q' = true))
    /\ (forall st e,
        In (Lookup st (Ok [])) (trace (s q f)) ->
        outcome (s q f) = Throw e ->
        roleFailure E q st e).

(** The words of the specification for a filter that matches nothing:
    the empty envelope, no search, no failure. *)
Definition zeroMatchYieldsEmptyEnvelope : Prop :=
  forall (E : Env.t) (q : TxQuery) (st : Store.t),
    In (Lookup st (Ok [])) (trace (toArray E q)) ->
    outcome (toArray E q) = Ok (emptyResponse q)
    /\ forall req, ~ In (ElasticSearch req) (trace (toArray E q)).

(** The parameters that feed the filter steps after the cursor. *)
Definition filterParams : list string :=
  ["type"; "account"; "source"; "destination"; "asset"; "src_asset";
   "dest_asset"; "offer"; "pool"; "memo"].

(** No timestamp and no filter parameter is supplied. *)
Definition noFilters (p : Obj) : bool :=
  match get p "from", get p "to" with
  | VUndefined, VUndefined =>
      forallb (fun k => negb (truthy (get p k))) filterParams
  | _, _ => false
  end.

(** A predicate the index can evaluate: a membership test over at least
    one value, or a range with a bound and with bottom not above top. *)
Definition wellFormed (f : Filter) : bool :=
  match f with
  | terms _ values => negb (List.length values =? 0)%nat
  | range _ (None, None) => false
  | range _ (Some b, Some t) => negb (t <? b)
  | range _ _ => true
  end.

Definition codeInRange (t : Term) : bool :=
  match t with
  | TNum n => inRange n
  | TStr _ => false
  | TProto _ => true
  end.

Definition hasKey (o : Obj) (k : string) : bool :=
  existsb (fun kv => (fst kv =? k)%string) o.

(** [BigInt(h._id)] on a hit of the index. *)
Definition hitId (_id : string) : Result Z :=
  match StringToBigInt _id with
  | Some id => Ok id
  | None => Throw (SyntaxError "Cannot convert to a BigInt")
  end.

(** The part of [fetchData] that follows the pipeline: the search, the
    decoding of the hits and the fusion of archive records and ledgers. *)
Definition searchAndFuse (E : Env.t) (q : TxQuery) (filter : list Filter)
  : M (list TxQueryResponse.t) :=
  let queryRequest := buildQuery E q filter in
  _ <- emit (ElasticSearch queryRequest) ;;
  hits <- lift (Env.search E queryRequest) ;;
  ids <- lift (mapR hitId hits) ;;
  match ids with
  | [] => ret []
  | _ :: _ =>
      '(transactions, ledgers) <-
        both
          (_ <- emit (ArchiveFetch ids) ;;
           lift (Env.fetchArchiveTransactions E (network q) ids
                   (Env.normalizeOrder E (orderName (order q)))))
          (fetchLedgersInfo E q ids) ;;
      ret (map (fun tx =>
                  prepareResponseEntry E tx
                    (ledgersGet ledgers (TxId.high (ArchiveTx.id tx)))
                    true) transactions)
  end.

(** The ledger sequences of a list of identifiers, each once, in order of
    first appearance. *)
Definition ledgerSequences (txIds : list Z) : list Z :=
  fold_left (fun st id => set_add Z.eqb st (Z.shiftr id 32)) txIds [].

(** What a step may do to the predicates: append well-formed ones. *)
Definition appendsWellFormed (s : Step) : Prop :=
  forall q f q' f',
    outcome (s q f) = Ok (q', f') ->
    exists extra, f' = (f ++ extra)%list /\ forallb wellFormed extra = true.

(** A list entry made from an archive record: it carries the record's
    identifier, also as paging token, and either no ledger data or the
    number of the record's own ledger with a timestamp. *)
Definition listEntryOf (E : Env.t) (tx : ArchiveTx.t) (r : TxQueryResponse.t)
  : Prop :=
  TxQueryResponse.id r = Env.idToString E (ArchiveTx.id tx)
  /\ TxQueryResponse.paging_token r = Some (TxQueryResponse.id r)
  /\ ((TxQueryResponse.ledger r = None /\ TxQueryResponse.ts r = None)
      \/ (TxQueryResponse.ledger r = Some (TxId.high (ArchiveTx.id tx))
          /\ exists t, TxQueryResponse.ts r = Some t)).

(** Every code of an entry of the taxonomy table is an operation code. *)
Definition entryInRange (e : TypeEntry) : bool :=
  match e with
  | Code n => inRange n
  | Group codes => forallb inRange codes
  end.

(** A step that issues at most [n] calls. *)
Definition stepCost (n : nat) (s : Step) : Prop :=
  forall q f, (List.length (trace (s q f)) <= n)%nat.

Definition isSearch (e : Event) : bool :=
  match e with ElasticSearch _ => true | _ => false end.

(** A deployment with another index behind it. *)
Definition withSearch (E : Env.t)
  (search : SearchRequest.t -> Result (list string)) : Env.t :=
  {| Env.validateNetwork := Env.validateNetwork E;
     Env.opIndex := Env.opIndex E;
     Env.normalizeLimit := Env.normalizeLimit E;
     Env.normalizeOrder := Env.normalizeOrder E;
     Env.resolveSequenceFromTimestamp := Env.resolveSequenceFromTimestamp E;
     Env.isValidEd25519PublicKey := Env.isValidEd25519PublicKey E;
     Env.findAccounts := Env.findAccounts E;
     Env.toFQAN := Env.toFQAN E;
     Env.findAssets := Env.findAssets E;
     Env.validateOfferId := Env.validateOfferId E;
     Env.validatePoolId := Env.validatePoolId E;
     Env.findPools := Env.findPools E;
     Env.fetchMemoIds := Env.fetchMemoIds E;
     Env.search := search;
     Env.fetchArchiveTransactions := Env.fetchArchiveTransactions E;
     Env.fetchSingleArchiveTransaction := Env.fetchSingleArchiveTransaction E;
     Env.fetchLedgers := Env.fetchLedgers E;
     Env.idToString := Env.idToString E;
     Env.toHex := Env.toHex E;
     Env.toBase64 := Env.toBase64 E |}.

(** ** The range constraint resolver *)

Lemma addTop_addBottom_comm (a b : Z) (c : IdConstraints.t) :
  IdConstraints.addTopConstraint a (IdConstraints.addBottomConstraint b c)
  = IdConstraints.addBottomConstraint b (IdConstraints.addTopConstraint a c).
Proof. reflexivity. Qed.

Lemma addBottom_top (v : Z) (c : IdConstraints.t) :
  IdConstraints.top (IdConstraints.addBottomConstraint v c)
  = IdConstraints.top c.
Proof. reflexivity. Qed.

Lemma addTop_bottom (v : Z) (c : IdConstraints.t) :
  IdConstraints.bottom (IdConstraints.addTopConstraint v c)
  = IdConstraints.bottom c.
Proof. reflexivity. Qed.

(** ** The cursor step *)

Lemma truthy_VStr (s : string) : truthy (VStr s) = true <-> s <> "".
Proof.
  simpl. destruct (String.eqb_spec s ""); simpl; split; congruence.
Qed.

(** C4. For a supplied cursor string that parses as a non-negative
    integer [c], the cursor step succeeds; with order [asc] it adds the
    bottom bound [c + 1] and leaves the top bound alone, with order [desc]
    it adds the top bound [c - 1] and leaves the bottom bound alone.  On
    the fresh resolver of a new query the bound is exactly that value.
    (The empty string is the unsupplied cursor.) *)
Theorem addCursorFilter_adds_bound (q : TxQuery) (s : string) (c : Z) :
  cursor q = VStr s -> s <> "" -> StringToBigInt s = Some c -> 0 <= c ->
  exists q',
    addCursorFilter q = Ok q'
    /\ match order q with
       | asc =>
           constraints q'
           = IdConstraints.addBottomConstraint (c + 1) (constraints q)
           /\ IdConstraints.top (constraints q')
              = IdConstraints.top (constraints q)
           /\ (constraints q = IdConstraints.empty ->
               constraints q'
               = {| IdConstraints.bottom := Some (c + 1);
                    IdConstraints.top := None |})
       | desc =>
           constraints q'
           = IdConstraints.addTopConstraint (c - 1) (constraints q)
           /\ IdConstraints.bottom (constraints q')
              = IdConstraints.bottom (constraints q)
           /\ (constraints q = IdConstraints.empty ->
               constraints q'
               = {| IdConstraints.bottom := None;
                    IdConstraints.top := Some (c - 1) |})
       end.
Proof.
  intros Hc Hs Hp Hnn. unfold addCursorFilter.
  rewrite Hc. apply truthy_VStr in Hs. rewrite Hs. simpl. rewrite Hp.
  destruct (Z.ltb_spec c 0) as [Hlt | _]; [lia |].
  destruct (order q); eexists; (split; [reflexivity |]); simpl;
    (split; [reflexivity | split; [reflexivity |]]);
    intros ->; reflexivity.
Qed.

Lemma addCursorFilter_adds_bound_witness :
  (exists q',
     addCursorFilter (Demo.query asc (VStr "1000") []) = Ok q'
     /\ constraints q'
        = {| IdConstraints.bottom := Some 1001; IdConstraints.top := None |})
  /\ (exists q',
        addCursorFilter (Demo.query desc (VStr "1000") []) = Ok q'
        /\ constraints q'
           = {| IdConstraints.bottom := None; IdConstraints.top := Some 999 |}).
Proof.
  split.
  - destruct (addCursorFilter_adds_bound
                (Demo.query asc (VStr "1000") []) "1000" 1000)
      as [q' [H1 [_ [_ H2]]]];
      [reflexivity | discriminate | reflexivity | lia |].
    exists q'. split; [exact H1 | apply H2; reflexivity].
  - destruct (addCursorFilter_adds_bound
                (Demo.query desc (VStr "1000") []) "1000" 1000)
      as [q' [H1 [_ [_ H2]]]];
      [reflexivity | discriminate | reflexivity | lia |].
    exists q'. split; [exact H1 | apply H2; reflexivity].
Defined.

(** C7. The cursor step throws exactly when a supplied (truthy) cursor
    does not parse as an integer, and what it throws is then a validation
    failure on field [cursor]; a cursor that parses to a negative integer
    leaves the query as it was.  ["abc"] does not parse and ["-5"] parses
    to [-5]. *)
Theorem addCursorFilter_failure_iff (q : TxQuery) :
  (isValidationOn "cursor" (addCursorFilter q)
   <-> truthy (cursor q) = true /\ ToBigInt (cursor q) = None)
  /\ (forall e, addCursorFilter q = Throw e ->
      exists message, e = ValidationError "cursor" message)
  /\ (forall c, ToBigInt (cursor q) = Some c -> c < 0 ->
      addCursorFilter q = Ok q)
  /\ (cursor q = VStr "abc" -> isValidationOn "cursor" (addCursorFilter q))
  /\ (cursor q = VStr "-5" -> addCursorFilter q = Ok q).
Proof.
  unfold isValidationOn, addCursorFilter.
  split; [split | split; [| split; [| split]]].
  - intros [m H]. destruct (truthy (cursor q)); [| discriminate].
    split; [reflexivity |].
    destruct (ToBigInt (cursor q)) as [c |]; [| reflexivity].
    simpl in H. destruct (c <? 0); [discriminate |].
    destruct (order q); discriminate.
  - intros [Ht Hn]. rewrite Ht, Hn. simpl. eexists. reflexivity.
  - intros e H. destruct (truthy (cursor q)); [| discriminate].
    simpl in H. destruct (ToBigInt (cursor q)) as [c |].
    + destruct (c <? 0); [discriminate |].
      destruct (order q); discriminate.
    + injection H as <-. eexists. reflexivity.
  - intros c Hc Hneg. rewrite Hc.
    destruct (truthy (cursor q)); [| reflexivity]. simpl.
    destruct (Z.ltb_spec c 0); [reflexivity | lia].
  - intros ->. simpl. eexists. reflexivity.
  - intros ->. reflexivity.
Qed.

Lemma addCursorFilter_failure_iff_witness :
  isValidationOn "cursor" (addCursorFilter (Demo.query desc (VStr "abc") []))
  /\ addCursorFilter (Demo.query desc (VStr "-5") [])
     = Ok (Demo.query desc (VStr "-5") []).
Proof.
  split.
  - apply (addCursorFilter_failure_iff (Demo.query desc (VStr "abc") [])).
    reflexivity.
  - apply (addCursorFilter_failure_iff (Demo.query desc (VStr "-5") [])).
    reflexivity.
Defined.

(** C10. An empty cursor string behaves as an absent cursor: in both
    cases the step returns the query unchanged, so no bound is added and
    nothing is thrown.  [BigInt] is not consulted: it would have read the
    empty string as zero. *)
Theorem addCursorFilter_empty_string (q : TxQuery) :
  cursor q = VStr "" \/ cursor q = VUndefined ->
  addCursorFilter q = Ok q /\ ToBigInt (VStr "") = Some 0.
Proof.
  intros [H | H]; unfold addCursorFilter; rewrite H; split; reflexivity.
Qed.

Lemma addCursorFilter_empty_string_witness :
  addCursorFilter (Demo.query asc (VStr "") [])
  = Ok (Demo.query asc (VStr "") []).
Proof.
  apply (addCursorFilter_empty_string (Demo.query asc (VStr "") [])).
  left. reflexivity.
Defined.

(** ** Construction *)

Lemma parseOrder_other (v : Val) :
  v <> VStr "asc" -> v <> VStr "desc" -> parseOrder v = None.
Proof.
  intros Ha Hd. destruct v as [| s | | |]; try reflexivity. simpl.
  destruct (String.eqb_spec s "asc"); [congruence |].
  destruct (String.eqb_spec s "desc"); [congruence | reflexivity].
Qed.

(** C9. On a recognised network, constructing a query without an [order]
    parameter succeeds with order [desc], while any supplied order other
    than ["asc"] and ["desc"] is a validation failure on field [order]. *)
Theorem constructor_order_default (E : Env.t) (network basePath : string)
  (query : Obj) :
  Env.validateNetwork E network = Ok tt ->
  (get query "order" = VUndefined ->
   exists q, constructor E network basePath query = Ok q /\ order q = desc)
  /\ (get query "order" <> VUndefined ->
      get query "order" <> VStr "asc" ->
      get query "order" <> VStr "desc" ->
      constructor E network basePath query
      = Throw (ValidationError "order" "Invalid sorting order")).
Proof.
  intros Hn. unfold constructor. rewrite Hn. split.
  - intros ->. simpl. eexists. split; reflexivity.
  - intros Hu Ha Hd.
    assert (Hsame : match get query "order" with
                    | VUndefined => VStr "desc"
                    | v => v
                    end = get query "order")
      by (destruct (get query "order"); congruence).
    rewrite Hsame, (parseOrder_other _ Ha Hd). reflexivity.
Qed.

Lemma constructor_order_default_witness :
  (exists q, constructor Demo.env "public" "/tx" [("limit", VStr "5")] = Ok q
             /\ order q = desc)
  /\ constructor Demo.env "public" "/tx" [("order", VStr "sideways")]
     = Throw (ValidationError "order" "Invalid sorting order").
Proof.
  split.
  - apply (constructor_order_default Demo.env "public" "/tx"
             [("limit", VStr "5")]); reflexivity.
  - apply (constructor_order_default Demo.env "public" "/tx"
             [("order", VStr "sideways")]);
      [reflexivity | discriminate | discriminate | discriminate].
Defined.

(** ** The type step *)

Lemma Term_eqb_eq (a b : Term) : Term_eqb a b = true <-> a = b.
Proof.
  destruct a, b; simpl; split; intros H; try discriminate;
    try (apply Z.eqb_eq in H; congruence);
    try (apply String.eqb_eq in H; congruence);
    injection H as ->;
    try apply Z.eqb_refl; apply String.eqb_refl.
Qed.

Lemma set_add_NoDup (st : list Term) (x : Term) :
  NoDup st -> NoDup (set_add Term_eqb st x).
Proof.
  intros Hnd. unfold set_add.
  destruct (existsb (Term_eqb x) st) eqn:Hex; [exact Hnd |].
  apply NoDup_app; [exact Hnd | repeat constructor; intros [] |].
  intros a Ha [-> | []].
  assert (existsb (Term_eqb a) st = true)
    by (apply existsb_exists; exists a; split;
        [exact Ha | apply Term_eqb_eq; reflexivity]).
  congruence.
Qed.

Lemma fold_set_add_NoDup (codes : list Z) (st : list Term) :
  NoDup st ->
  NoDup (fold_left (fun st type => set_add Term_eqb st (TNum type)) codes st).
Proof.
  revert st. induction codes as [| c codes IH]; intros st Hnd; simpl.
  - exact Hnd.
  - apply IH, set_add_NoDup, Hnd.
Qed.

Lemma addType_NoDup (st st' : list Term) (value : Val) :
  NoDup st -> addType st value = Ok st' -> NoDup st'.
Proof.
  intros Hnd. unfold addType.
  destruct value as [| s | n | l |]; try discriminate.
  - destruct (typeMapping_get s) as [| [c | codes] | name].
    + destruct (parseInt10 s) as [n |]; [| discriminate].
      destruct (inRange n); [| discriminate].
      intros [= <-]. apply set_add_NoDup, Hnd.
    + intros [= <-]. apply set_add_NoDup, Hnd.
    + intros [= <-]. apply fold_set_add_NoDup, Hnd.
    + intros [= <-]. apply set_add_NoDup, Hnd.
  - destruct (inRange n); [| discriminate].
    intros [= <-]. apply set_add_NoDup, Hnd.
Qed.

Lemma addTypes_NoDup (type : list Val) (st st' : list Term) :
  NoDup st -> addTypes type st = Ok st' -> NoDup st'.
Proof.
  revert st. induction type as [| v type IH]; intros st Hnd; simpl.
  - intros [= <-]. exact Hnd.
  - destruct (addType st v) as [st1 |] eqn:H1; [| discriminate].
    apply IH. eapply addType_NoDup; eassumption.
Qed.

(** What the type step throws is a validation failure on field [type]. *)
Lemma addType_throws (st : list Term) (value : Val) (e : Error) :
  addType st value = Throw e -> exists message, e = ValidationError "type" message.
Proof.
  unfold addType. destruct value as [| s | n | l |];
    try (intros [= <-]; eexists; reflexivity).
  - destruct (typeMapping_get s) as [| [c | codes] | name]; try discriminate.
    destruct (parseInt10 s) as [n |].
    + destruct (inRange n); [discriminate |].
      intros [= <-]; eexists; reflexivity.
    + intros [= <-]; eexists; reflexivity.
  - destruct (inRange n); [discriminate |].
    intros [= <-]; eexists; reflexivity.
Qed.

Lemma addTypes_throws (type : list Val) (st : list Term) (e : Error) :
  addTypes type st = Throw e -> exists message, e = ValidationError "type" message.
Proof.
  revert st. induction type as [| v type IH]; intros st; simpl.
  - discriminate.
  - destruct (addType st v) as [st1 |] eqn:H1.
    + apply IH.
    + intros [= <-]. eapply addType_throws, H1.
Qed.

(** C5. The mnemonic ["payments"] alone yields one predicate over exactly
    the codes 0, 1, 2, 8, 9, 13, 14, 15, 19, 20; the list
    [["payment", "5"]] yields one predicate over the codes 1 and 5; and
    whenever the step emits a predicate it is a single one, appended to
    the filters, whose values are free of repetitions. *)
Theorem addTypesFilter_expands (q : TxQuery) (filters : list Filter) :
  (get (params q) "type" = VStr "payments" ->
   addTypesFilter q filters
   = Ok (filters ++ [terms "type"
                       (map TNum [0; 1; 2; 8; 9; 13; 14; 15; 19; 20])])%list)
  /\ (get (params q) "type" = VArr [VStr "payment"; VStr "5"] ->
      addTypesFilter q filters
      = Ok (filters ++ [terms "type" [TNum 1; TNum 5]])%list)
  /\ (forall filters',
      addTypesFilter q filters = Ok filters' ->
      filters' = filters
      \/ exists codes,
           filters' = (filters ++ [terms "type" codes])%list /\ NoDup codes).
Proof.
  unfold addTypesFilter. split; [| split].
  - intros ->. reflexivity.
  - intros ->. reflexivity.
  - intros filters'.
    destruct (truthy (get (params q) "type")); simpl;
      [| intros [= <-]; left; reflexivity].
    destruct (30 <? _)%nat; [discriminate |].
    destruct (addTypes _ []) as [[| t st] |] eqn:Hadd; try discriminate.
    + intros [= <-]; left; reflexivity.
    + intros [= <-]; right. exists (t :: st). split; [reflexivity |].
      eapply addTypes_NoDup; [| exact Hadd]. constructor.
Qed.

Lemma addTypesFilter_expands_witness :
  addTypesFilter (Demo.query desc VUndefined [("type", VStr "payments")]) []
  = Ok [terms "type" [TNum 0; TNum 1; TNum 2; TNum 8; TNum 9; TNum 13;
                      TNum 14; TNum 15; TNum 19; TNum 20]]
  /\ addTypesFilter
       (Demo.query desc VUndefined
          [("type", VArr [VStr "payment"; VStr "5"])]) []
     = Ok [terms "type" [TNum 1; TNum 5]]
  /\ addTypesFilter
       (Demo.query desc VUndefined
          [("type", VArr [VStr "payment"; VStr "1"; VStr "payments"])]) []
     = Ok [terms "type" [TNum 1; TNum 0; TNum 2; TNum 8; TNum 9; TNum 13;
                         TNum 14; TNum 15; TNum 19; TNum 20]].
Proof.
  split; [| split].
  - apply (addTypesFilter_expands
             (Demo.query desc VUndefined [("type", VStr "payments")]) []).
    reflexivity.
  - apply (addTypesFilter_expands
             (Demo.query desc VUndefined
                [("type", VArr [VStr "payment"; VStr "5"])]) []).
    reflexivity.
  - reflexivity.
Defined.

Lemma find_none_existsb (s : string) (table : list (string * TypeEntry)) :
  existsb (String.eqb s) (map fst table) = false ->
  find (fun kv => (fst kv =? s)%string) table = None.
Proof.
  induction table as [| [k e] table IH]; simpl; [reflexivity |].
  rewrite (String.eqb_sym k s).
  destruct (s =? k)%string; simpl; [discriminate | exact IH].
Qed.

Lemma typeMapping_get_unresolved (s : string) :
  resolvesInTable s = false -> typeMapping_get s = MUndefined.
Proof.
  unfold resolvesInTable, knownMnemonic, typeMapping_get.
  intros H. apply orb_false_iff in H as [Hown Hproto].
  rewrite (find_none_existsb _ _ Hown), Hproto. reflexivity.
Qed.

Lemma addType_rejected (st : list Term) (value : Val) :
  rejected value = true -> exists e, addType st value = Throw e.
Proof.
  unfold rejected, addType. destruct value as [| s | n | l |];
    try (intros _; eexists; reflexivity).
  - intros H. apply andb_true_iff in H as [Hres Hnum].
    apply negb_true_iff in Hres.
    rewrite (typeMapping_get_unresolved _ Hres).
    destruct (parseInt10 s) as [n |]; [| eexists; reflexivity].
    apply negb_true_iff in Hnum. rewrite Hnum. eexists; reflexivity.
  - intros H. apply negb_true_iff in H. rewrite H. eexists; reflexivity.
Qed.

Lemma addTypes_rejected (type : list Val) (st : list Term) :
  existsb rejected type = true -> exists e, addTypes type st = Throw e.
Proof.
  revert st. induction type as [| v type IH]; intros st; simpl.
  - discriminate.
  - intros H. destruct (addType st v) as [st1 |] eqn:H1.
    + apply IH. destruct (rejected v) eqn:Hv; [| exact H].
      destruct (addType_rejected st v Hv) as [e He]. congruence.
    + eexists; reflexivity.
Qed.

(** C3, as amended.  When type values are supplied (a truthy [type]
    parameter, a single value standing for a one-element list): more than
    30 values are a validation failure on field [type]; and so is any
    list holding a [rejected] value, that is a string the table lookup
    does not resolve whose leading integer is missing or outside 0..23,
    or a value that is neither a string nor a Number in 0..23. *)
Theorem addTypesFilter_rejects (q : TxQuery) (filters : list Filter) :
  truthy (get (params q) "type") = true ->
  ((30 < List.length (enforceArray (get (params q) "type")))%nat ->
   addTypesFilter q filters
   = Throw (ValidationError "type" "Too many type filters."))
  /\ (existsb rejected (enforceArray (get (params q) "type")) = true ->
      isValidationOn "type" (addTypesFilter q filters)).
Proof.
  intros Ht. unfold isValidationOn, addTypesFilter. rewrite Ht. simpl. split.
  - intros Hlen. apply Nat.ltb_lt in Hlen. rewrite Hlen. reflexivity.
  - intros Hrej. destruct (30 <? _)%nat; [eexists; reflexivity |].
    destruct (addTypes_rejected _ [] Hrej) as [e He]. rewrite He.
    destruct (addTypes_throws _ _ _ He) as [m ->]. eexists; reflexivity.
Qed.

Lemma addTypesFilter_rejects_witness :
  isValidationOn "type"
    (addTypesFilter (Demo.query desc VUndefined [("type", VStr "24")]) [])
  /\ addTypesFilter
       (Demo.query desc VUndefined [("type", VArr (repeat (VStr "1") 31))]) []
     = Throw (ValidationError "type" "Too many type filters.").
Proof.
  split.
  - apply (addTypesFilter_rejects
             (Demo.query desc VUndefined [("type", VStr "24")]) []);
      reflexivity.
  - apply (addTypesFilter_rejects
             (Demo.query desc VUndefined
                [("type", VArr (repeat (VStr "1") 31))]) []);
      [reflexivity | simpl; lia].
Defined.

(** C3 as stated fails: ["5abc"] is neither a key of the table nor a
    numeral, yet the step reads its leading integer and emits code 5. *)
Lemma addTypesFilter_accepts_leading_integer : ~ rejectsEveryUnknownType.
Proof.
  intros H.
  destruct (H (Demo.query desc VUndefined [("type", VStr "5abc")]) [] "5abc")
    as [m Hm]; try reflexivity.
  discriminate Hm.
Qed.

(** ** The timestamp-range step *)


(** The calls and the outcome of the timestamp step. *)
Lemma addTsFilter_eq (E : Env.t) (q : TxQuery) :
  addTsFilter E q
  = ((resolveCalls E q (get (params q) "to")
      ++ resolveCalls E q (get (params q) "from"))%list,
     match resolved E q (get (params q) "to"),
           resolved E q (get (params q) "from") with
     | Some (Throw e), _ => Throw e
     | _, Some (Throw e) => Throw e
     | toSequence, fromSequence =>
         let c := constraints q in
         let c := match toSequence with
                  | Some (Ok sequence) =>
                      IdConstraints.addTopConstraint
                        (Z.shiftl (ToUint32 (roundToDouble (sequence + 1)))
                           32) c
                  | _ => c
                  end in
         let c := match fromSequence with
                  | Some (Ok sequence) =>
                      IdConstraints.addBottomConstraint
                        (Z.shiftl (ToUint32 sequence) 32) c
                  | _ => c
                  end in
         Ok (setConstraints q c)
     end).
Proof.
  unfold addTsFilter, resolved, resolveCalls.
  destruct (get (params q) "to"), (get (params q) "from");
    repeat match goal with
           | |- context [Env.resolveSequenceFromTimestamp ?a ?b ?c] =>
               destruct (Env.resolveSequenceFromTimestamp a b c)
           end;
    reflexivity.
Qed.





(** ** The pipeline and its calls *)

Lemma trace_bind {A B} (m : M A) (f : A -> M B) :
  trace (bind m f)
  = match outcome m with
    | Ok a => (trace m ++ trace (f a))%list
    | Throw _ => trace m
    end.
Proof. unfold trace, outcome, bind. destruct (snd m); reflexivity. Qed.

Lemma outcome_bind {A B} (m : M A) (f : A -> M B) :
  outcome (bind m f)
  = match outcome m with
    | Ok a => outcome (f a)
    | Throw e => Throw e
    end.
Proof. unfold outcome, bind. destruct (snd m); reflexivity. Qed.

Lemma sameRequest_refl q : sameRequest q q.
Proof. repeat split. Qed.


Lemma sameRequest_setUnfeasible q q' :
  sameRequest (setUnfeasible q) q' -> sameRequest q q'.
Proof. exact (fun H => H). Qed.

Ltac push_bind :=
  rewrite ?trace_bind, ?outcome_bind;
  cbn [emit lift ret outcome trace fst snd app].

Lemma rolesSpec_ret (store : Store.t) (q : TxQuery) (f : list Filter) :
  rolesSpec store (ret (q, f)) q.
Proof.
  split; [intros e [] |]. intros q' f' [= <- <-].
  split; [apply sameRequest_refl | intros [H | []]; exact H].
Qed.

Lemma rolesSpec_throw (store : Store.t) (q : TxQuery) (e : Error) :
  rolesSpec store (lift (Throw e)) q.
Proof. split; [intros x [] | discriminate]. Qed.

(** A lookup followed by the rest of the loop. *)
Lemma rolesSpec_lookup (store : Store.t) (q : TxQuery)
  (matched : Result (list Z)) (k : list Z -> M (TxQuery * list Filter)) :
  (forall ids, matched = Ok ids ->
     rolesSpec store (k ids) (if match ids with [] => true | _ => false end
                              then setUnfeasible q else q)) ->
  rolesSpec store (_ <- emit (Lookup store matched) ;;
                   ids <- lift matched ;; k ids) q.
Proof.
  intros Hk. destruct matched as [ids | err]; push_bind.
  - destruct (Hk ids eq_refl) as [H1 H2]. split.
    + intros e [<- | He]; [eexists; reflexivity | apply H1, He].
    + intros q' f' Hout. destruct (H2 q' f' Hout) as [Hsame Hflag].
      split; [destruct ids; exact Hsame |].
      intros [Hq | [Heq | Hin]].
      * apply Hflag. left. destruct ids; [reflexivity | exact Hq].
      * injection Heq as ->. apply Hflag. left. reflexivity.
      * apply Hflag. right. exact Hin.
  - split; [| discriminate].
    intros e [<- | []]. eexists; reflexivity.
Qed.

Lemma addAccountFilter_roles_spec (E : Env.t) (roles : list (string * string)) :
  forall q f,
    rolesSpec Store.accounts (addAccountFilter_roles E roles q f) q.
Proof.
  induction roles as [| [param key] rest IH]; intros q f; simpl.
  - apply rolesSpec_ret.
  - destruct (truthy _); simpl; [| apply IH].
    destruct (_ =? 0)%nat; [apply IH |].
    destruct (10 <? _)%nat; [apply rolesSpec_throw |].
    destruct (find _ _); [apply rolesSpec_throw |].
    apply rolesSpec_lookup. intros [| i ids] _; apply IH.
Qed.

Lemma addAssetFilter_roles_spec (E : Env.t) (roles : list (string * string)) :
  forall q f,
    rolesSpec Store.assets (addAssetFilter_roles E roles q f) q.
Proof.
  induction roles as [| [param key] rest IH]; intros q f; simpl.
  - apply rolesSpec_ret.
  - destruct (truthy _); simpl; [| apply IH].
    destruct (_ =? 0)%nat; [apply IH |].
    destruct (10 <? _)%nat; [apply rolesSpec_throw |].
    destruct (mapR _ _) as [fqans | err].
    + unfold bind at 1. cbn [lift fst snd app].
      change (rolesSpec Store.assets
                (_ <- emit (Lookup Store.assets
                              (Env.findAssets E (network q) fqans)) ;;
                 ids <- lift (Env.findAssets E (network q) fqans) ;;
                 match ids with
                 | [] => addAssetFilter_roles E rest (setUnfeasible q) f
                 | _ :: _ =>
                     addAssetFilter_roles E rest q
                       (f ++ [terms key (map TNum ids)])%list
                 end) q).
      apply rolesSpec_lookup. intros [| i ids] _; apply IH.
    + apply rolesSpec_throw.
Qed.

Lemma addPoolFilter_spec (E : Env.t) (q : TxQuery) (f : list Filter) :
  rolesSpec Store.liquidity_pools (addPoolFilter E q f) q
  /\ (In (Lookup Store.liquidity_pools (Ok [])) (trace (addPoolFilter E q f)) ->
      exists r, outcome (addPoolFilter E q f) = Ok r).
Proof.
  unfold addPoolFilter.
  destruct (truthy _); simpl; [| split; [apply rolesSpec_ret | intros []]].
  destruct (10 <? _)%nat; [split; [apply rolesSpec_throw | intros []] |].
  destruct (mapR _ _) as [oks | err];
    [| split; [apply rolesSpec_throw | intros []]].
  unfold bind at 1. cbn [lift fst snd app]. unfold bind at 3. cbn [lift fst snd app].
  split.
  - apply rolesSpec_lookup. intros [| i ids] _.
    + split; [intros e [] |]. intros q' f' [= <- <-].
      split; [apply sameRequest_refl | reflexivity].
    + apply rolesSpec_ret.
  - destruct (Env.findPools _ _ _) as [[| i ids] | err]; push_bind.
    + eexists; reflexivity.
    + eexists; reflexivity.
    + intros [H | []]; discriminate.
Qed.

Lemma addMemoFilter_spec (E : Env.t) (q : TxQuery) (f : list Filter) :
  rolesSpec Store.memos (addMemoFilter E q f) q
  /\ (In (Lookup Store.memos (Ok [])) (trace (addMemoFilter E q f)) ->
      exists r, outcome (addMemoFilter E q f) = Ok r).
Proof.
  unfold addMemoFilter.
  destruct (truthy _); simpl; [| split; [apply rolesSpec_ret | intros []]].
  destruct (_ =? 0)%nat; [split; [apply rolesSpec_ret | intros []] |].
  destruct (10 <? _)%nat; [split; [apply rolesSpec_throw | intros []] |].
  split.
  - apply rolesSpec_lookup. intros [| i ids] _.
    + split; [intros e [] |]. intros q' f' [= <- <-].
      split; [apply sameRequest_refl | reflexivity].
    + apply rolesSpec_ret.
  - destruct (Env.fetchMemoIds _ _ _) as [[| i ids] | err]; push_bind.
    + eexists; reflexivity.
    + eexists; reflexivity.
    + intros [H | []]; discriminate.
Qed.

(** A role loop fails on the parameters and the network alone: the
    predicates gathered so far and the rest of the query play no part. *)
Lemma addAccountFilter_roles_throw (E : Env.t)
  (roles : list (string * string)) :
  forall q f q' f' e,
    params q' = params q -> network q' = network q ->
    outcome (addAccountFilter_roles E roles q f) = Throw e ->
    outcome (addAccountFilter_roles E roles q' f') = Throw e.
Proof.
  induction roles as [| [param key] rest IH]; intros q f q' f' e Hp Hn;
    simpl.
  - discriminate.
  - rewrite Hp, Hn. destruct (truthy _); simpl; [| apply IH; assumption].
    destruct (_ =? 0)%nat; [apply IH; assumption |].
    destruct (10 <? _)%nat; [exact id |].
    destruct (find _ _); [exact id |].
    destruct (Env.findAccounts _ _ _) as [[| i ids] |];
      repeat (progress push_bind); [| | exact id];
      apply IH; assumption.
Qed.

Lemma addAssetFilter_roles_throw (E : Env.t)
  (roles : list (string * string)) :
  forall q f q' f' e,
    params q' = params q -> network q' = network q ->
    outcome (addAssetFilter_roles E roles q f) = Throw e ->
    outcome (addAssetFilter_roles E roles q' f') = Throw e.
Proof.
  induction roles as [| [param key] rest IH]; intros q f q' f' e Hp Hn;
    simpl.
  - discriminate.
  - rewrite Hp, Hn. destruct (truthy _); simpl; [| apply IH; assumption].
    destruct (_ =? 0)%nat; [apply IH; assumption |].
    destruct (10 <? _)%nat; [exact id |].
    destruct (mapR _ _) as [fqans |]; [| exact id].
    repeat (progress push_bind).
    destruct (Env.findAssets _ _ _) as [[| i ids] |];
      repeat (progress push_bind); [| | exact id];
      apply IH; assumption.
Qed.

Lemma roleFailure_same (E : Env.t) (q q' : TxQuery) (st : Store.t)
  (e : Error) :
  sameRequest q q' -> roleFailure E q' st e -> roleFailure E q st e.
Proof.
  intros (Hn & _ & _ & _ & _ & Hp) [[-> H] | [-> H]]; [left | right];
    (split; [reflexivity |]).
  - eapply (addAccountFilter_roles_throw E accountRoles q' []);
      [symmetry; exact Hp | symmetry; exact Hn | exact H].
  - eapply (addAssetFilter_roles_throw E assetRoles q' []);
      [symmetry; exact Hp | symmetry; exact Hn | exact H].
Qed.

Lemma stepSpec_roles (E : Env.t) (store : Store.t) (s : Step) :
  (forall q f, rolesSpec store (s q f) q) ->
  (forall q f e,
     In (Lookup store (Ok [])) (trace (s q f)) ->
     outcome (s q f) = Throw e -> roleFailure E q store e) ->
  stepSpec E s.
Proof.
  intros Hroles Hfail q f. destruct (Hroles q f) as [Hev Hok].
  split; [| split].
  - intros e He. left. exists store. apply Hev, He.
  - intros q' f' Hout. destruct (Hok q' f' Hout) as [Hsame Hflag].
    split; [exact Hsame |]. intros st Hin. apply Hflag. right.
    destruct (Hev _ Hin) as [r [= -> _]]. exact Hin.
  - intros st e Hin Hthrow. destruct (Hev _ Hin) as [r [= -> _]].
    eapply Hfail; eassumption.
Qed.

(** A step that issues no lookup. *)
Lemma stepSpec_silent (E : Env.t) (s : Step) :
  (forall q f e, In e (trace (s q f)) ->
                 exists t r, e = ResolveTimestamp t r) ->
  (forall q f q' f', outcome (s q f) = Ok (q', f') -> sameRequest q q') ->
  stepSpec E s.
Proof.
  intros Htr Hkeep q f. split; [| split].
  - intros e He. right. eapply Htr, He.
  - intros q' f' Hout. split; [eapply Hkeep, Hout |].
    intros st Hin. destruct (Htr _ _ _ Hin) as (t & r & Heq).
    discriminate Heq.
  - intros st e Hin. destruct (Htr _ _ _ Hin) as (t & r & Heq).
    discriminate Heq.
Qed.

Lemma sameRequest_setConstraints (q : TxQuery) (c : IdConstraints.t) :
  sameRequest q (setConstraints q c).
Proof. repeat split. Qed.

Lemma addCursorFilter_keeps (q q' : TxQuery) :
  addCursorFilter q = Ok q' -> sameRequest q q'.
Proof.
  unfold addCursorFilter. destruct (truthy _); simpl.
  - destruct (ToBigInt _) as [c |]; [| discriminate].
    destruct (c <? 0); [intros [= <-]; apply sameRequest_refl |].
    destruct (order q); intros [= <-]; apply sameRequest_setConstraints.
  - intros [= <-]; apply sameRequest_refl.
Qed.

Lemma addTsFilter_keeps (E : Env.t) (q q' : TxQuery) :
  outcome (addTsFilter E q) = Ok q' -> sameRequest q q'.
Proof.
  rewrite addTsFilter_eq. unfold outcome, resolved. cbn [snd].
  destruct (get (params q) "to"), (get (params q) "from");
    repeat match goal with
           | |- context [Env.resolveSequenceFromTimestamp ?a ?b ?c] =>
               destruct (Env.resolveSequenceFromTimestamp a b c)
           end;
    try discriminate; intros [= <-]; apply sameRequest_setConstraints.
Qed.

Lemma addTsFilter_calls (E : Env.t) (q : TxQuery) (e : Event) :
  In e (trace (addTsFilter E q)) -> exists t r, e = ResolveTimestamp t r.
Proof.
  rewrite addTsFilter_eq. unfold trace, resolveCalls. cbn [fst].
  intros Hin. apply in_app_or in Hin as [Hin | Hin];
    [destruct (get (params q) "to") | destruct (get (params q) "from")];
    simpl in Hin; try contradiction;
    destruct Hin as [<- | []]; eexists; eexists; reflexivity.
Qed.

Lemma pipeline_spec (E : Env.t) : Forall (stepSpec E) (pipeline E).
Proof.
  unfold pipeline. repeat apply Forall_cons; try apply Forall_nil.
  - apply stepSpec_silent; intros q f.
    + intros e. destruct (addCursorFilter q); intros [].
    + intros q' f'. push_bind.
      destruct (addCursorFilter q) eqn:H; [| discriminate].
      intros [= <- <-]. apply addCursorFilter_keeps, H.
  - apply stepSpec_silent; intros q f.
    + intros e. rewrite trace_bind.
      destruct (outcome (addTsFilter E q)); cbn [ret trace fst];
        rewrite ?app_nil_r; apply addTsFilter_calls.
    + intros q' f'. rewrite outcome_bind.
      destruct (outcome (addTsFilter E q)) eqn:H; [| discriminate].
      intros [= <- <-]. eapply addTsFilter_keeps, H.
  - apply stepSpec_silent; intros q f; [intros e [] |].
    intros q' f'. unfold addIdRangeFilter, ret, outcome; simpl.
    destruct (IdConstraints.isEmpty _);
      [| destruct (IdConstraints.isUnfeasible _)];
      intros [= <- <-]; repeat split.
  - apply stepSpec_silent; intros q f.
    + intros e. destruct (addTypesFilter q f); intros [].
    + intros q' f'. push_bind.
      destruct (addTypesFilter q f); [| discriminate].
      intros [= <- <-]. apply sameRequest_refl.
  - apply (stepSpec_roles E Store.accounts);
      [intros; apply addAccountFilter_roles_spec |].
    intros q f e _ H. left. split; [reflexivity |].
    eapply (addAccountFilter_roles_throw E accountRoles q f);
      [reflexivity | reflexivity | exact H].
  - apply (stepSpec_roles E Store.assets);
      [intros; apply addAssetFilter_roles_spec |].
    intros q f e _ H. right. split; [reflexivity |].
    eapply (addAssetFilter_roles_throw E assetRoles q f);
      [reflexivity | reflexivity | exact H].
  - apply stepSpec_silent; intros q f.
    + intros e. destruct (addOfferFilter E q f); intros [].
    + intros q' f'. push_bind.
      destruct (addOfferFilter E q f); [| discriminate].
      intros [= <- <-]. apply sameRequest_refl.
  - apply (stepSpec_roles E Store.liquidity_pools);
      [intros; apply addPoolFilter_spec |].
    intros q f e Hin H.
    destruct (proj2 (addPoolFilter_spec E q f) Hin) as [r Hr]. congruence.
  - apply (stepSpec_roles E Store.memos);
      [intros; apply addMemoFilter_spec |].
    intros q f e Hin H.
    destruct (proj2 (addMemoFilter_spec E q f) Hin) as [r Hr]. congruence.
Qed.

Lemma sameRequest_trans (a b c : TxQuery) :
  sameRequest a b -> sameRequest b c -> sameRequest a c.
Proof.
  unfold sameRequest. intros (H1 & H2 & H3 & H4 & H5 & H6)
    (K1 & K2 & K3 & K4 & K5 & K6). repeat split; congruence.
Qed.

(** The loop over the steps: only lookups and resolutions are issued; a
    run that comes through has seen no empty lookup; a failure after an
    empty lookup is the failure of the role loop that made it. *)
Lemma runPipeline_spec (E : Env.t) (steps : list Step) :
  Forall (stepSpec E) steps ->
  forall q f,
    (forall e, In e (trace (runPipeline steps q f)) -> pipelineCall e)
    /\ (forall q' f',
        outcome (runPipeline steps q f) = Ok (Some (q', f')) ->
        sameRequest q q'
        /\ forall st, ~ In (Lookup st (Ok [])) (trace (runPipeline steps q f)))
    /\ (forall st e,
        In (Lookup st (Ok [])) (trace (runPipeline steps q f)) ->
        outcome (runPipeline steps q f) = Throw e ->
        roleFailure E q st e).
Proof.
  induction 1 as [| step rest Hstep _ IH]; intros q f; simpl.
  - split; [intros e [] | split].
    + intros q' f' [= <- <-]. split; [apply sameRequest_refl | intros st []].
    + intros st e [].
  - destruct (Hstep q f) as (Hev & Hok & Hthrow).
    rewrite trace_bind, outcome_bind.
    destruct (outcome (step q f)) as [[q1 f1] | err] eqn:Hout.
    + destruct (Hok q1 f1 eq_refl) as [Hsame Hflag].
      destruct (isUnfeasible q1) eqn:Hq1.
      * cbn [ret trace outcome fst snd]. rewrite app_nil_r.
        split; [exact Hev | split; [intros q' f' Hn; discriminate Hn |]].
        intros st e _ Hn; discriminate Hn.
      * destruct (IH q1 f1) as (IHev & IHok & IHthrow).
        split; [| split].
        -- intros e He. apply in_app_or in He as [He | He]; auto.
        -- intros q' f' Hrun. destruct (IHok q' f' Hrun) as [Hsame' Hno].
           split; [eapply sameRequest_trans; eassumption |].
           intros st Hin. apply in_app_or in Hin as [Hin | Hin].
           ++ discriminate (Hflag st Hin).
           ++ exact (Hno st Hin).
        -- intros st e Hin Hrun. apply in_app_or in Hin as [Hin | Hin].
           ++ discriminate (Hflag st Hin).
           ++ eapply roleFailure_same; [exact Hsame |].
              eapply IHthrow; eassumption.
    + split; [exact Hev | split; [intros q' f' Hn; discriminate Hn |]].
      intros st e Hin [= <-]. eapply Hthrow; [exact Hin | reflexivity].
Qed.

(** A call of the pipeline is no search. *)
Lemma pipelineCall_no_search (e : Event) (req : SearchRequest.t) :
  pipelineCall e -> e <> ElasticSearch req.
Proof. intros [(st & r & ->) | (t & r & ->)]; discriminate. Qed.

(** The calls of [fetchData]: the steps' resolutions and lookups, then at
    most one search with the request built from the surviving query, then
    the fetches. *)
Lemma fetchData_spec (E : Env.t) (q : TxQuery) :
  (forall req, In (ElasticSearch req) (trace (fetchData E q)) ->
     (exists q' filter, sameRequest q q' /\ req = buildQuery E q' filter)
     /\ forall st, ~ In (Lookup st (Ok [])) (trace (fetchData E q)))
  /\ (forall st, In (Lookup st (Ok [])) (trace (fetchData E q)) ->
      outcome (fetchData E q) = Ok []
      \/ exists e, outcome (fetchData E q) = Throw e
                   /\ roleFailure E q st e).
Proof.
  destruct (runPipeline_spec E _ (pipeline_spec E) q [])
    as (Hev & Hok & Hthrow).
  unfold fetchData. rewrite trace_bind, outcome_bind.
  destruct (outcome (runPipeline (pipeline E) q [])) as [[[q' filter] |] | err]
    eqn:Hrun.
  - destruct (Hok q' filter eq_refl) as [Hsame Hno].
    assert (Htail : forall e (m : M (list TxQueryResponse.t)),
              m = (_ <- emit (ElasticSearch (buildQuery E q' filter)) ;;
                   hits <- lift (Env.search E (buildQuery E q' filter)) ;;
                   ids <- lift (mapR (fun _id =>
                                  match StringToBigInt _id with
                                  | Some id => Ok id
                                  | None =>
                                      Throw (SyntaxError
                                               "Cannot convert to a BigInt")
                                  end) hits) ;;
                   match ids with
                   | [] => ret []
                   | _ :: _ =>
                       '(transactions, ledgers) <-
                         both
                           (_ <- emit (ArchiveFetch ids) ;;
                            lift (Env.fetchArchiveTransactions E (network q')
                                    ids
                                    (Env.normalizeOrder E
                                       (orderName (order q')))))
                           (fetchLedgersInfo E q' ids) ;;
                       ret (map (fun tx =>
                                   prepareResponseEntry E tx
                                     (ledgersGet ledgers
                                        (TxId.high (ArchiveTx.id tx)))
                                     true) transactions)
                   end) ->
              In e (trace m) ->
              e = ElasticSearch (buildQuery E q' filter)
              \/ (exists ids, e = ArchiveFetch ids)
              \/ (exists keys, e = LedgersFetch keys)).
    { intros e m -> . push_bind.
      intros [<- | He]; [left; reflexivity | right].
      destruct (Env.search E _) as [hits | err]; push_bind; [| destruct He].
      destruct (mapR _ hits) as [[| id ids] | err]; push_bind;
        try (destruct He; fail).
      unfold both, fetchLedgersInfo in He. cbn [trace fst snd] in He.
      rewrite !trace_bind in He.
      cbn [emit lift ret trace outcome fst snd app] in He.
      destruct (Env.fetchArchiveTransactions _ _ _ _);
        destruct (await _); cbn in He;
        intuition (subst; eauto). }
    split.
    + intros req Hin. split.
      * exists q', filter. split; [exact Hsame |].
        apply in_app_or in Hin as [Hin | Hin].
        -- destruct (pipelineCall_no_search _ req (Hev _ Hin) eq_refl).
        -- destruct (Htail _ _ eq_refl Hin) as [Heq | [[ids Heq] | [k Heq]]];
             congruence.
      * intros st Hz. apply in_app_or in Hz as [Hz | Hz].
        -- exact (Hno st Hz).
        -- destruct (Htail _ _ eq_refl Hz) as [Heq | [[ids Heq] | [k Heq]]];
             discriminate.
    + intros st Hz. exfalso. apply in_app_or in Hz as [Hz | Hz].
      * exact (Hno st Hz).
      * destruct (Htail _ _ eq_refl Hz) as [Heq | [[ids Heq] | [k Heq]]];
          discriminate.
  - cbn [ret trace outcome fst snd]. rewrite app_nil_r. split.
    + intros req Hin. destruct (pipelineCall_no_search _ req (Hev _ Hin) eq_refl).
    + intros st _. left. reflexivity.
  - split.
    + intros req Hin. destruct (pipelineCall_no_search _ req (Hev _ Hin) eq_refl).
    + intros st Hz. right. exists err. split; [reflexivity |].
      eapply Hthrow; [exact Hz | reflexivity].
Qed.

Lemma toArray_guard (E : Env.t) (q : TxQuery) :
  isUnfeasible q || IdConstraints.isUnfeasible (constraints q) = true ->
  toArray E q = ret (emptyResponse q).
Proof. intros H. unfold toArray. rewrite H. reflexivity. Qed.

Lemma toArray_trace (E : Env.t) (q : TxQuery) (e : Event) :
  In e (trace (toArray E q)) -> In e (trace (fetchData E q)).
Proof.
  unfold toArray. destruct (_ || _); [intros [] |].
  rewrite trace_bind. destruct (outcome (fetchData E q)); [| exact id].
  cbn [ret trace fst]. rewrite app_nil_r. exact id.
Qed.

Lemma trace_toArray (E : Env.t) (q : TxQuery) :
  isUnfeasible q || IdConstraints.isUnfeasible (constraints q) = false ->
  trace (toArray E q) = trace (fetchData E q)
  /\ outcome (toArray E q)
     = match outcome (fetchData E q) with
       | Ok records =>
           Ok (preparePagedData (basePath q) (pagedParams q) records)
       | Throw e => Throw e
       end.
Proof.
  intros H. unfold toArray. rewrite H, trace_bind, outcome_bind.
  destruct (outcome (fetchData E q)); cbn [ret trace outcome fst snd];
    rewrite ?app_nil_r; split; reflexivity.
Qed.

Lemma constructor_fields (E : Env.t) (network' basePath' : string)
  (query : Obj) (q : TxQuery) :
  constructor E network' basePath' query = Ok q ->
  network q = network' /\ basePath q = basePath'
  /\ cursor q = get query "cursor"
  /\ limit q = Env.normalizeLimit E (get query "limit")
  /\ parseOrder (match get query "order" with
                 | VUndefined => VStr "desc"
                 | v => v
                 end) = Some (order q)
  /\ isUnfeasible q || IdConstraints.isUnfeasible (constraints q) = false.
Proof.
  unfold constructor. destruct (Env.validateNetwork E network'); [| discriminate].
  destruct (parseOrder _) as [o |]; [| discriminate].
  intros [= <-]. repeat split.
Qed.

(** A pipeline that comes through is followed by the search. *)
Lemma fetchData_searches (E : Env.t) (q q' : TxQuery) (filter : list Filter) :
  outcome (runPipeline (pipeline E) q []) = Ok (Some (q', filter)) ->
  In (ElasticSearch (buildQuery E q' filter)) (trace (fetchData E q)).
Proof.
  intros Hrun. unfold fetchData. rewrite trace_bind, Hrun.
  apply in_or_app. right. push_bind. left. reflexivity.
Qed.

(** C8. For a constructed query, every search request the query issues
    is filter-only (the predicates sit under [bool.filter]), has the
    normalized limit as page size and as cap of the hit count, sorts by
    [id] in the requested order, carries the timeout ["5s"], switches
    [_source] off and asks for the field [id] only; and a pipeline that
    comes through does issue that request, built from its predicates. *)
Theorem toArray_search_request (E : Env.t) (network' basePath' : string)
  (query : Obj) (q : TxQuery) :
  constructor E network' basePath' query = Ok q ->
  parseOrder (match get query "order" with
              | VUndefined => VStr "desc"
              | v => v
              end) = Some (order q)
  /\ (forall req,
      In (ElasticSearch req) (trace (toArray E q)) ->
      exists filter,
        req = {| SearchRequest.index := Env.opIndex E network';
                 SearchRequest._source := false;
                 SearchRequest.size :=
                   Env.normalizeLimit E (get query "limit");
                 SearchRequest.timeout := "5s";
                 SearchRequest.track_total_hits :=
                   Env.normalizeLimit E (get query "limit");
                 SearchRequest.sort := [("id", order q)];
                 SearchRequest.query := bool_filter filter;
                 SearchRequest.fields := ["id"] |})
  /\ (forall q' filter,
      outcome (runPipeline (pipeline E) q []) = Ok (Some (q', filter)) ->
      In (ElasticSearch (buildQuery E q' filter)) (trace (toArray E q))
      /\ SearchRequest.query (buildQuery E q' filter) = bool_filter filter).
Proof.
  intros Hc.
  apply constructor_fields in Hc as (Hn & _ & _ & Hl & Ho & Hg).
  split; [exact Ho | split].
  - intros req Hin. apply toArray_trace in Hin.
    destruct (fetchData_spec E q) as [Hsearch _].
    destruct (Hsearch req Hin) as [(q' & filter & Hsame & ->) _].
    destruct Hsame as (Hn' & _ & _ & Ho' & Hl' & _).
    exists filter. unfold buildQuery.
    rewrite Hn', Ho', Hl', Hn, Hl. reflexivity.
  - intros q' filter Hrun. split; [| reflexivity].
    destruct (trace_toArray E q Hg) as [-> _].
    apply fetchData_searches, Hrun.
Qed.

Lemma toArray_search_request_witness :
  exists filter,
    buildQuery Demo.env
      (Demo.query asc (VStr "1000") [("type", VStr "payment")])
      [range "id" (Some 1001, None); terms "type" [TNum 1]]
    = {| SearchRequest.index := "ops_public";
         SearchRequest._source := false;
         SearchRequest.size := 10;
         SearchRequest.timeout := "5s";
         SearchRequest.track_total_hits := 10;
         SearchRequest.sort := [("id", asc)];
         SearchRequest.query := bool_filter filter;
         SearchRequest.fields := ["id"] |}.
Proof.
  destruct (toArray_search_request Demo.env "public" "/tx"
              [("order", VStr "asc"); ("cursor", VStr "1000");
               ("type", VStr "payment")]
              (Demo.query asc (VStr "1000") [("type", VStr "payment")])
              eq_refl) as (_ & Hshape & _).
  apply Hshape. left. reflexivity.
Defined.

(** C2, as amended.  When an account, asset, pool or memo lookup of a
    query matches nothing, the search is never issued, and the query
    returns the standard empty envelope unless the step that made the
    empty lookup fails itself: that can only be the account or the asset
    step, whose loop goes on to its remaining roles, and the failure the
    caller gets is then the one this loop raises on the query's
    parameters.  No later step runs, and after an empty pool or memo
    lookup nothing fails. *)
Theorem toArray_zero_match (E : Env.t) (q : TxQuery) (st : Store.t) :
  In (Lookup st (Ok [])) (trace (toArray E q)) ->
  (forall req, ~ In (ElasticSearch req) (trace (toArray E q)))
  /\ (outcome (toArray E q) = Ok (emptyResponse q)
      \/ exists e,
           outcome (toArray E q) = Throw e
           /\ ((st = Store.accounts
                /\ outcome (addAccountFilter E q []) = Throw e)
               \/ (st = Store.assets
                   /\ outcome (addAssetFilter E q []) = Throw e))).
Proof.
  intros Hz.
  destruct (isUnfeasible q || IdConstraints.isUnfeasible (constraints q))
    eqn:Hg.
  - rewrite (toArray_guard E q Hg) in Hz. destruct Hz.
  - destruct (trace_toArray E q Hg) as [Htr Hout].
    rewrite Htr in *. rewrite Hout.
    destruct (fetchData_spec E q) as [Hsearch Hzero]. split.
    + intros req Hin. destruct (Hsearch req Hin) as [_ Hno].
      exact (Hno st Hz).
    + destruct (Hzero st Hz) as [-> | (e & -> & Hst)].
      * left. reflexivity.
      * right. exists e. split; [reflexivity | exact Hst].
Qed.

Lemma toArray_zero_match_witness :
  outcome (toArray Demo.env
             (Demo.query desc VUndefined [("memo", VStr "hello")]))
  = Ok (emptyResponse (Demo.query desc VUndefined [("memo", VStr "hello")])).
Proof.
  destruct (toArray_zero_match Demo.env
              (Demo.query desc VUndefined [("memo", VStr "hello")])
              Store.memos) as [_ [H | (e & _ & [[H _] | [H _]])]];
    [left; reflexivity | exact H | discriminate H | discriminate H].
Defined.

(** C2 as stated fails: the [account] role matches nothing, the loop
    goes on to the [source] role, whose address is malformed, and the
    caller gets that validation failure. *)
Lemma toArray_zero_match_then_failure : ~ zeroMatchYieldsEmptyEnvelope.
Proof.
  intros H.
  destruct (H Demo.env
              (Demo.query desc VUndefined
                 [("account", VStr Demo.unknownAccount);
                  ("source", VStr "nope")])
              Store.accounts) as [Hout _].
  - left. reflexivity.
  - discriminate Hout.
Qed.

(** X8. The lookup of a transaction that the archive holds: after the
    archive, the ledger store is asked for the record's [_id]; its answer
    is destructured as it comes back, so a promise ends the lookup with a
    TypeError and a plain array gives the entry of the record with the
    first ledger returned, or none, and without paging token. *)
Lemma fetchTx_present (E : Env.t) (network' idOrHash : string)
  (tx : ArchiveTx.t) :
  (String.length idOrHash <= 64)%nat ->
  Env.validateNetwork E network' = Ok tt ->
  Env.fetchSingleArchiveTransaction E network' idOrHash = Ok (Some tx) ->
  trace (fetchTx E network' (VStr idOrHash))
  = [ArchiveFetchOne idOrHash; LedgersFetch [ArchiveTx._id tx]]
  /\ (forall settled,
      Env.fetchLedgers E network' [ArchiveTx._id tx] = Promise settled ->
      outcome (fetchTx E network' (VStr idOrHash))
      = Throw (TypeError "object is not iterable"))
  /\ (forall found,
      Env.fetchLedgers E network' [ArchiveTx._id tx] = Plain found ->
      outcome (fetchTx E network' (VStr idOrHash))
      = Ok (prepareResponseEntry E tx (hd_error found) false)).
Proof.
  intros Hlen Hnet Htx. unfold fetchTx.
  destruct (Nat.ltb_spec 64 (String.length idOrHash)) as [Hgt | _]; [lia |].
  rewrite Hnet, Htx. repeat (progress push_bind).
  destruct (Env.fetchLedgers E network' [ArchiveTx._id tx]) as [l | settled];
    cbn [destructureFirst]; (split; [reflexivity | split]);
    intros x [= <-]; reflexivity.
Qed.

(** C1.  The archive holds transaction 429496729601, of ledger 100, and
    the ledger store knows the timestamp of ledger 100; yet the lookup
    asks the ledger store for key 429496729601, the record's [_id], and
    fails with a TypeError on the promise it did not await, instead of
    returning an entry with that timestamp.  Were the store to answer at
    once, the entry would come back without a paging token but also
    without a timestamp, no ledger having that key. *)
Theorem fetchTx_unawaited_ledgers :
  Env.fetchSingleArchiveTransaction Demo.env "public" "429496729601"
  = Ok (Some (Demo.tx 429496729601))
  /\ TxId.high (ArchiveTx.id (Demo.tx 429496729601)) = 100
  /\ await (Env.fetchLedgers Demo.env "public" [VNum 100])
     = Ok [{| Ledger._id := 100; Ledger.ts := 1700000000 |}]
  /\ fetchTx Demo.env "public" (VStr "429496729601")
     = ([ArchiveFetchOne "429496729601"; LedgersFetch [VNum 429496729601]],
        Throw (TypeError "object is not iterable"))
  /\ exists entry,
       fetchTx Demo.syncEnv "public" (VStr "429496729601")
       = ([ArchiveFetchOne "429496729601"; LedgersFetch [VNum 429496729601]],
          Ok entry)
       /\ TxQueryResponse.ts entry = None
       /\ TxQueryResponse.paging_token entry = None.
Proof.
  repeat split. eexists. repeat split.
Qed.

(** ** Queries without filters *)

Lemma noFilters_get (p : Obj) :
  noFilters p = true ->
  get p "from" = VUndefined /\ get p "to" = VUndefined
  /\ Forall (fun k => truthy (get p k) = false) filterParams.
Proof.
  unfold noFilters. destruct (get p "from"); try discriminate.
  destruct (get p "to"); try discriminate.
  intros H. split; [reflexivity | split; [reflexivity |]].
  rewrite forallb_forall in H. apply Forall_forall. intros k Hk.
  apply negb_true_iff, H, Hk.
Qed.

Ltac use_noFilters H :=
  apply noFilters_get in H as (Hfrom & Hto & Hrest);
  unfold filterParams in Hrest;
  repeat match goal with
         | Hr : Forall _ (_ :: _) |- _ => inversion Hr; subst; clear Hr
         end.


(** Steps whose parameters are absent add nothing and call nothing. *)
Lemma steps_without_params (E : Env.t) (q : TxQuery) (f : list Filter) :
  noFilters (params q) = true ->
  addTsFilter E q = ret (setConstraints q (constraints q))
  /\ addTypesFilter q f = Ok f
  /\ addAccountFilter E q f = ret (q, f)
  /\ addAssetFilter E q f = ret (q, f)
  /\ addOfferFilter E q f = Ok f
  /\ addPoolFilter E q f = ret (q, f)
  /\ addMemoFilter E q f = ret (q, f).
Proof.
  intros Hnf. use_noFilters Hnf.
  rewrite addTsFilter_eq. unfold resolved, resolveCalls.
  unfold addTypesFilter, addAccountFilter, addAssetFilter,
    addOfferFilter, addPoolFilter, addMemoFilter, accountRoles, assetRoles.
  cbn [addAccountFilter_roles addAssetFilter_roles].
  repeat match goal with
         | Hk : truthy (get (params q) ?k) = false |- _ =>
             rewrite Hk; clear Hk
         end.
  rewrite Hfrom, Hto. repeat split.
Qed.

Lemma setConstraints_same (q : TxQuery) : setConstraints q (constraints q) = q.
Proof. destruct q; reflexivity. Qed.

Lemma bind_ret {A B} (a : A) (f : A -> M B) : bind (ret a) f = f a.
Proof. unfold bind, ret. simpl. destruct (f a); reflexivity. Qed.

Lemma bind_lift_Ok {A B} (a : A) (f : A -> M B) : bind (lift (Ok a)) f = f a.
Proof. exact (bind_ret a f). Qed.

Lemma bind_lift_Throw {A B} (e : Error) (f : A -> M B) :
  bind (lift (Throw e)) f = lift (Throw e).
Proof. reflexivity. Qed.

Ltac run_binds :=
  repeat (progress (rewrite ?bind_lift_Ok, ?bind_ret, ?bind_lift_Throw;
                    cbv beta iota)).

Lemma addCursorFilter_flag (q q1 : TxQuery) :
  addCursorFilter q = Ok q1 -> isUnfeasible q1 = isUnfeasible q.
Proof.
  unfold addCursorFilter.
  destruct (truthy _); simpl; [| intros [= <-]; reflexivity].
  destruct (ToBigInt _) as [c |]; [| discriminate].
  destruct (c <? 0); [intros [= <-]; reflexivity |].
  destruct (order q); intros [= <-]; reflexivity.
Qed.

(** The pipeline of a query that supplies nothing but a cursor. *)
Lemma runPipeline_no_filters (E : Env.t) (q q1 : TxQuery) :
  noFilters (params q) = true -> isUnfeasible q = false ->
  addCursorFilter q = Ok q1 ->
  IdConstraints.isUnfeasible (constraints q1) = false ->
  runPipeline (pipeline E) q []
  = ret (Some (q1, if IdConstraints.isEmpty (constraints q1) then []
                   else [range "id"
                           (IdConstraints.resolve (constraints q1))])).
Proof.
  intros Hnf Hu Hcur Hfeas.
  pose proof (addCursorFilter_keeps _ _ Hcur) as (_ & _ & _ & _ & _ & Hpar).
  pose proof (addCursorFilter_flag _ _ Hcur) as Hu1. rewrite Hu in Hu1.
  rewrite <- Hpar in Hnf.
  unfold pipeline. cbn [runPipeline]. rewrite Hcur. run_binds. rewrite Hu1.
  destruct (steps_without_params E q1 [] Hnf) as (Hts & _).
  rewrite Hts, setConstraints_same. run_binds. rewrite Hu1. run_binds.
  unfold addIdRangeFilter. rewrite Hfeas.
  destruct (IdConstraints.isEmpty (constraints q1)) eqn:Hem;
    rewrite Hu1;
    match goal with
    | |- context [addTypesFilter q1 ?f] =>
        destruct (steps_without_params E q1 f Hnf)
          as (_ & Hty & Hac & Has & Hof & Hpo & Hme)
    end;
    repeat first [ rewrite Hty | rewrite Hac | rewrite Has | rewrite Hof
                 | rewrite Hpo | rewrite Hme | rewrite Hu1
                 | progress run_binds ];
    reflexivity.
Qed.

(** X1. A query that supplies only a cursor (no timestamp, no filter
    parameter) issues, as its first call, the search whose only predicate
    is the range over [id]: from [c + 1] upwards for order [asc], up to
    [c - 1] for order [desc]. *)
Theorem cursor_only_request (E : Env.t) (q : TxQuery) (s : string) (c : Z) :
  noFilters (params q) = true ->
  isUnfeasible q = false -> constraints q = IdConstraints.empty ->
  cursor q = VStr s -> s <> "" -> StringToBigInt s = Some c -> 0 <= c ->
  exists rest,
    trace (toArray E q)
    = ElasticSearch
        (buildQuery E q
           [range "id" match order q with
                       | asc => (Some (c + 1), None)
                       | desc => (None, Some (c - 1))
                       end]) :: rest.
Proof.
  intros Hnf Hu Hc Hcur Hs Hp Hnn.
  assert (H1 : addCursorFilter q
               = Ok (setConstraints q
                       match order q with
                       | asc => IdConstraints.addBottomConstraint (c + 1)
                                  (constraints q)
                       | desc => IdConstraints.addTopConstraint (c - 1)
                                   (constraints q)
                       end)).
  { unfold addCursorFilter. rewrite Hcur.
    apply truthy_VStr in Hs. rewrite Hs. cbn [negb ToBigInt]. rewrite Hp.
    destruct (Z.ltb_spec c 0); [lia |]. destruct (order q); reflexivity. }
  unfold toArray. rewrite Hu, Hc. cbn [orb IdConstraints.isUnfeasible
    IdConstraints.empty IdConstraints.bottom IdConstraints.top].
  unfold fetchData.
  rewrite (runPipeline_no_filters E q _ Hnf Hu H1);
    [| rewrite Hc; destruct (order q); reflexivity].
  run_binds. rewrite Hc.
  destruct (order q); cbn [constraints setConstraints IdConstraints.isEmpty
    IdConstraints.addBottomConstraint IdConstraints.addTopConstraint
    IdConstraints.bottom IdConstraints.top IdConstraints.empty
    IdConstraints.resolve];
    rewrite trace_bind;
    match goal with
    | |- context [outcome ?m] => destruct (outcome m)
    end;
    rewrite (trace_bind (emit _)); cbn [emit outcome trace fst snd app];
    eexists; reflexivity.
Qed.

(** X2. A query without cursor, timestamps and filter parameters goes
    straight to the index: its first call is the search with an empty
    predicate list. *)
Theorem bare_request (E : Env.t) (q : TxQuery) :
  noFilters (params q) = true ->
  isUnfeasible q = false -> constraints q = IdConstraints.empty ->
  truthy (cursor q) = false ->
  exists rest,
    trace (toArray E q) = ElasticSearch (buildQuery E q []) :: rest.
Proof.
  intros Hnf Hu Hc Hcur.
  assert (H1 : addCursorFilter q = Ok q)
    by (unfold addCursorFilter; rewrite Hcur; reflexivity).
  unfold toArray. rewrite Hu, Hc. cbn [orb IdConstraints.isUnfeasible
    IdConstraints.empty IdConstraints.bottom IdConstraints.top].
  unfold fetchData.
  rewrite (runPipeline_no_filters E q _ Hnf Hu H1);
    [| rewrite Hc; reflexivity].
  run_binds. rewrite Hc. cbn [IdConstraints.isEmpty IdConstraints.empty
    IdConstraints.bottom IdConstraints.top].
  rewrite trace_bind.
  match goal with
  | |- context [outcome ?m] => destruct (outcome m)
  end;
    rewrite (trace_bind (emit _)); cbn [emit outcome trace fst snd app];
    eexists; reflexivity.
Qed.



(** X3. A cursor that does not parse fails the whole query with a
    validation failure on [cursor] before any store or index call is
    issued, whatever the other parameters are. *)
Theorem invalid_cursor_precedes_calls (E : Env.t) (q : TxQuery) :
  isUnfeasible q || IdConstraints.isUnfeasible (constraints q) = false ->
  truthy (cursor q) = true -> ToBigInt (cursor q) = None ->
  exists message,
    toArray E q = ([], Throw (ValidationError "cursor" message)).
Proof.
  intros Hg Ht Hn. eexists. unfold toArray. rewrite Hg.
  unfold fetchData, pipeline. cbn [runPipeline].
  unfold addCursorFilter. rewrite Ht, Hn. cbn [negb]. reflexivity.
Qed.










(** ** The single-record lookup *)

(** X7. The lookup rejects an argument that is not a string or is longer
    than 64 characters with a validation failure on [id], and an
    unrecognised network with the validator's failure, in both cases
    before the archive is asked; a transaction the archive does not hold
    is a not-found failure, and the ledger store is not asked. *)
Theorem fetchTx_failures (E : Env.t) (network' : string) (txIdOrHash : Val) :
  ((forall s, txIdOrHash = VStr s -> (64 < String.length s)%nat) ->
   fetchTx E network' txIdOrHash
   = ([], Throw (ValidationError "id" "Invalid transaction id or hash")))
  /\ (forall s e,
      txIdOrHash = VStr s -> (String.length s <= 64)%nat ->
      Env.validateNetwork E network' = Throw e ->
      fetchTx E network' txIdOrHash = ([], Throw e))
  /\ (forall s,
      txIdOrHash = VStr s -> (String.length s <= 64)%nat ->
      Env.validateNetwork E network' = Ok tt ->
      Env.fetchSingleArchiveTransaction E network' s = Ok None ->
      fetchTx E network' txIdOrHash
      = ([ArchiveFetchOne s],
         Throw (NotFound ("Transaction " ++ s ++ " not found on the "
                          ++ network' ++ " ledger")))).
Proof.
  split; [| split].
  - intros H. destruct txIdOrHash as [| s | | |]; try reflexivity.
    unfold fetchTx. specialize (H s eq_refl).
    apply Nat.ltb_lt in H. rewrite H. reflexivity.
  - intros s e -> Hlen Hnet. unfold fetchTx.
    destruct (Nat.ltb_spec 64 (String.length s)); [lia |].
    rewrite Hnet. reflexivity.
  - intros s -> Hlen Hnet Habs. unfold fetchTx.
    destruct (Nat.ltb_spec 64 (String.length s)); [lia |].
    rewrite Hnet, Habs. reflexivity.
Qed.

(** ** The ledger map of the fusion *)

Lemma ledgersGet_set (res : list (Z * Ledger.t)) (ledger : Ledger.t) (k : Z) :
  ledgersGet (ledgersSet res ledger) k
  = if Ledger._id ledger =? k then Some ledger else ledgersGet res k.
Proof.
  unfold ledgersGet. induction res as [| [k' l'] res IH]; simpl.
  - destruct (Ledger._id ledger =? k); reflexivity.
  - destruct (Z.eqb_spec k' (Ledger._id ledger)) as [-> | Hne]; simpl.
    + destruct (Ledger._id ledger =? k); reflexivity.
    + destruct (Z.eqb_spec k' k) as [-> | Hk]; simpl.
      * destruct (Z.eqb_spec (Ledger._id ledger) k); [congruence | reflexivity].
      * exact IH.
Qed.

Lemma find_snoc {A} (p : A -> bool) (l : list A) (x : A) :
  find p (l ++ [x])
  = match find p l with
    | Some y => Some y
    | None => if p x then Some x else None
    end.
Proof.
  induction l as [| y l IH]; simpl; [reflexivity |].
  destruct (p y); [reflexivity | exact IH].
Qed.

Lemma ledgersGet_fold (ledgers : list Ledger.t) (res : list (Z * Ledger.t))
  (k : Z) :
  ledgersGet (fold_left ledgersSet ledgers res) k
  = match find (fun l => Ledger._id l =? k) (rev ledgers) with
    | Some l => Some l
    | None => ledgersGet res k
    end.
Proof.
  revert res. induction ledgers as [| l ledgers IH]; intros res; simpl.
  - reflexivity.
  - rewrite IH, find_snoc.
    destruct (find _ (rev ledgers)); [reflexivity |].
    rewrite ledgersGet_set. destruct (Ledger._id l =? k); reflexivity.
Qed.

(** X9. The map built from the ledgers fetched answers a sequence with
    the last fetched record of that [_id], and with nothing when there is
    none. *)
Theorem ledgers_lookup_last (ledgers : list Ledger.t) (k : Z) :
  ledgersGet (fold_left ledgersSet ledgers []) k
  = find (fun l => Ledger._id l =? k) (rev ledgers).
Proof.
  rewrite ledgersGet_fold. destruct (find _ _); reflexivity.
Qed.

(** ** The ledgers asked for *)

Lemma set_add_Z_spec (st : list Z) (x : Z) :
  NoDup st ->
  NoDup (set_add Z.eqb st x)
  /\ forall k, In k (set_add Z.eqb st x) <-> In k st \/ k = x.
Proof.
  intros Hnd. unfold set_add.
  destruct (existsb (Z.eqb x) st) eqn:Hex.
  - split; [exact Hnd |]. intros k. split; [auto |].
    intros [H | ->]; [exact H |].
    apply existsb_exists in Hex as (y & Hy & Heq).
    apply Z.eqb_eq in Heq. subst. exact Hy.
  - split.
    + apply NoDup_app; [exact Hnd | repeat constructor; intros [] |].
      intros a Ha [-> | []].
      assert (existsb (Z.eqb a) st = true)
        by (apply existsb_exists; exists a; split;
            [exact Ha | apply Z.eqb_refl]).
      congruence.
    + intros k. rewrite in_app_iff. simpl. intuition.
Qed.

Lemma ledgerIds_spec (txIds : list Z) (st : list Z) :
  NoDup st ->
  NoDup (fold_left (fun st id => set_add Z.eqb st (Z.shiftr id 32)) txIds st)
  /\ forall k,
       In k (fold_left (fun st id => set_add Z.eqb st (Z.shiftr id 32))
               txIds st)
       <-> In k st \/ exists id, In id txIds /\ k = Z.shiftr id 32.
Proof.
  revert st. induction txIds as [| id txIds IH]; intros st Hnd; simpl.
  - split; [exact Hnd |]. intros k. split; [auto |].
    intros [H | (id & [] & _)]. exact H.
  - destruct (set_add_Z_spec st (Z.shiftr id 32) Hnd) as [Hnd' Hin'].
    destruct (IH _ Hnd') as [Hnd'' Hin'']. split; [exact Hnd'' |].
    intros k. rewrite Hin'', Hin'. split.
    + intros [[H | ->] | (x & Hx & ->)]; eauto.
    + intros [H | (x & [<- | Hx] & ->)]; eauto.
Qed.

(** X10. The ledger store is asked once, for the high 32 bits of the
    identifiers: each sequence of some identifier is asked for, none
    other is, and none twice. *)
Theorem fetchLedgersInfo_keys (E : Env.t) (q : TxQuery) (txIds : list Z) :
  trace (fetchLedgersInfo E q txIds)
  = [LedgersFetch (map VNum (ledgerSequences txIds))]
  /\ NoDup (ledgerSequences txIds)
  /\ (forall k, In k (ledgerSequences txIds)
                <-> exists id, In id txIds /\ k = Z.shiftr id 32).
Proof.
  destruct (ledgerIds_spec txIds [] (NoDup_nil Z)) as [Hnd Hin].
  split; [| split; [exact Hnd |]].
  - unfold fetchLedgersInfo, ledgerSequences.
    repeat (progress push_bind). destruct (await _); reflexivity.
  - intros k. unfold ledgerSequences. rewrite Hin.
    split; [intros [[] | H]; exact H | auto].
Qed.


(** ** Search and fusion *)

Lemma fetchData_searchAndFuse (E : Env.t) (q : TxQuery) :
  fetchData E q
  = (res <- runPipeline (pipeline E) q [] ;;
     match res with
     | None => ret []
     | Some (q', filter) => searchAndFuse E q' filter
     end).
Proof. reflexivity. Qed.

Lemma fetchData_survived (E : Env.t) (q q' : TxQuery) (filter : list Filter) :
  outcome (runPipeline (pipeline E) q []) = Ok (Some (q', filter)) ->
  fetchData E q
  = ((trace (runPipeline (pipeline E) q [])
      ++ trace (searchAndFuse E q' filter))%list,
     outcome (searchAndFuse E q' filter)).
Proof.
  intros H. rewrite fetchData_searchAndFuse.
  unfold bind. unfold outcome in H. rewrite H. reflexivity.
Qed.

Lemma mapR_hitId_fails (hits : list string) (h : string) :
  In h hits -> StringToBigInt h = None ->
  mapR hitId hits = Throw (SyntaxError "Cannot convert to a BigInt").
Proof.
  induction hits as [| x hits IH]; intros Hin Hh; [destruct Hin |].
  simpl. unfold hitId at 1. destruct (StringToBigInt x) eqn:Hx.
  - destruct Hin as [-> | Hin]; [congruence |].
    rewrite (IH Hin Hh). reflexivity.
  - reflexivity.
Qed.

(** X11. After a pipeline that came through, a search without hits
    yields the empty list, a hit whose [_id] is not an integer yields a
    SyntaxError and a failing search yields its failure; in all three
    cases the search is the last call, neither archive nor ledger store
    is asked. *)
Theorem fetchData_no_hits (E : Env.t) (q q' : TxQuery) (filter : list Filter) :
  outcome (runPipeline (pipeline E) q []) = Ok (Some (q', filter)) ->
  (Env.search E (buildQuery E q' filter) = Ok [] ->
   fetchData E q
   = ((trace (runPipeline (pipeline E) q [])
       ++ [ElasticSearch (buildQuery E q' filter)])%list, Ok []))
  /\ (forall hits h,
      Env.search E (buildQuery E q' filter) = Ok hits ->
      In h hits -> StringToBigInt h = None ->
      fetchData E q
      = ((trace (runPipeline (pipeline E) q [])
          ++ [ElasticSearch (buildQuery E q' filter)])%list,
         Throw (SyntaxError "Cannot convert to a BigInt")))
  /\ (forall e,
      Env.search E (buildQuery E q' filter) = Throw e ->
      fetchData E q
      = ((trace (runPipeline (pipeline E) q [])
          ++ [ElasticSearch (buildQuery E q' filter)])%list, Throw e)).
Proof.
  intros Hrun. rewrite (fetchData_survived E q q' filter Hrun).
  unfold searchAndFuse. cbv zeta. split; [| split].
  - intros ->. reflexivity.
  - intros hits h -> Hin Hh. repeat (progress push_bind).
    rewrite (mapR_hitId_fails hits h Hin Hh). reflexivity.
  - intros e ->. reflexivity.
Qed.

Lemma fetchLedgersInfo_eq (E : Env.t) (q : TxQuery) (txIds : list Z) :
  fetchLedgersInfo E q txIds
  = ([LedgersFetch (map VNum (ledgerSequences txIds))],
     match await (Env.fetchLedgers E (network q)
                    (map VNum (ledgerSequences txIds))) with
     | Ok ledgers => Ok (fold_left ledgersSet ledgers [])
     | Throw e => Throw e
     end).
Proof.
  unfold fetchLedgersInfo, ledgerSequences. cbv zeta.
  unfold bind, emit, lift, ret. cbn [fst snd app].
  destruct (await _); reflexivity.
Qed.

(** X12. When search, archive and ledger store all answer, the calls
    after the pipeline are the search, the archive fetch for the decoded
    hit identifiers in hit order, and the ledger fetch for their
    sequences; the result has one entry per archive record, in the
    archive's order, each with the last fetched ledger whose [_id] is the
    high word of the record's identifier. *)
Theorem fetchData_fusion (E : Env.t) (q q' : TxQuery) (filter : list Filter)
  (hits : list string) (ids : list Z) (transactions : list ArchiveTx.t)
  (found : list Ledger.t) :
  outcome (runPipeline (pipeline E) q []) = Ok (Some (q', filter)) ->
  Env.search E (buildQuery E q' filter) = Ok hits ->
  mapR hitId hits = Ok ids -> ids <> [] ->
  Env.fetchArchiveTransactions E (network q) ids
    (Env.normalizeOrder E (orderName (order q))) = Ok transactions ->
  await (Env.fetchLedgers E (network q) (map VNum (ledgerSequences ids)))
  = Ok found ->
  fetchData E q
  = ((trace (runPipeline (pipeline E) q [])
      ++ [ElasticSearch (buildQuery E q' filter); ArchiveFetch ids;
          LedgersFetch (map VNum (ledgerSequences ids))])%list,
     Ok (map (fun tx =>
                prepareResponseEntry E tx
                  (find (fun l => Ledger._id l =? TxId.high (ArchiveTx.id tx))
                     (rev found))
                  true) transactions)).
Proof.
  intros Hrun Hsearch Hids Hne Harch Hfound.
  destruct (runPipeline_spec E _ (pipeline_spec E) q []) as (_ & Hok & _).
  destruct (Hok q' filter Hrun) as [(Hn & _ & _ & Ho & _) _].
  rewrite (fetchData_survived E q q' filter Hrun).
  unfold searchAndFuse. cbv zeta. rewrite Hsearch.
  repeat (progress push_bind). rewrite Hids.
  destruct ids as [| id ids]; [congruence |].
  rewrite fetchLedgersInfo_eq, Hn, Ho, Harch, Hfound.
  unfold both, bind, emit, lift, ret, outcome, trace. cbn [fst snd app].
  f_equal. f_equal. apply map_ext. intros tx.
  rewrite ledgers_lookup_last. reflexivity.
Qed.

Lemma prepareResponseEntry_listEntry (E : Env.t) (tx : ArchiveTx.t)
  (found : list Ledger.t) :
  listEntryOf E tx
    (prepareResponseEntry E tx
       (ledgersGet (fold_left ledgersSet found [])
          (TxId.high (ArchiveTx.id tx))) true).
Proof.
  rewrite ledgers_lookup_last. unfold listEntryOf, prepareResponseEntry.
  cbn [TxQueryResponse.id TxQueryResponse.paging_token TxQueryResponse.ledger
       TxQueryResponse.ts].
  split; [reflexivity | split; [reflexivity |]].
  destruct (find _ _) as [l |] eqn:Hf; cbn [option_map].
  - right. apply find_some in Hf as [_ Hid]. apply Z.eqb_eq in Hid.
    rewrite Hid. split; [reflexivity | eexists; reflexivity].
  - left. split; reflexivity.
Qed.

Lemma searchAndFuse_records (E : Env.t) (q : TxQuery) (filter : list Filter)
  (records : list TxQueryResponse.t) :
  outcome (searchAndFuse E q filter) = Ok records ->
  exists transactions, Forall2 (listEntryOf E) transactions records.
Proof.
  unfold searchAndFuse. cbv zeta. repeat (progress push_bind).
  destruct (Env.search E _) as [hits |]; [| discriminate].
  repeat (progress push_bind).
  destruct (mapR hitId hits) as [[| id ids] |]; try discriminate.
  - intros [= <-]. exists []. constructor.
  - rewrite fetchLedgersInfo_eq.
    unfold both, bind, emit, lift, ret, outcome, trace. cbn [fst snd app].
    destruct (Env.fetchArchiveTransactions _ _ _ _) as [txs |];
      [| discriminate].
    destruct (await _) as [found |]; [| discriminate].
    intros [= <-]. exists txs.
    induction txs as [| tx txs IH]; simpl; constructor;
      [apply prepareResponseEntry_listEntry | exact IH].
Qed.

(** X13. Every envelope the query returns is built on the query's base
    path and echoed parameters, and each of its records comes from an
    archive record: its paging token is its identifier, and it carries
    either no ledger data or the number of its own ledger (the high word
    of its identifier) with a timestamp. *)
Theorem toArray_list_entries (E : Env.t) (q : TxQuery) (base : string)
  (p : Obj) (records : list TxQueryResponse.t) :
  outcome (toArray E q) = Ok (preparePagedData base p records) ->
  base = basePath q /\ p = pagedParams q
  /\ exists transactions, Forall2 (listEntryOf E) transactions records.
Proof.
  unfold toArray. destruct (_ || _).
  - intros [= <- <- <-]. repeat split. exists []. constructor.
  - rewrite outcome_bind, fetchData_searchAndFuse, outcome_bind.
    destruct (outcome (runPipeline (pipeline E) q []))
      as [[[q' filter] |] |]; try discriminate.
    + destruct (outcome (searchAndFuse E q' filter)) as [rs |] eqn:Hrs;
        [| discriminate].
      intros [= <- <- <-]. repeat split.
      eapply searchAndFuse_records, Hrs.
    + intros [= <- <- <-]. repeat split. exists []. constructor.
Qed.

(** ** The predicates handed to the index *)

Lemma appends_nothing (f : list Filter) :
  exists extra, f = (f ++ extra)%list /\ forallb wellFormed extra = true.
Proof. exists []. rewrite app_nil_r. split; reflexivity. Qed.

Lemma appends_one (f : list Filter) (x : Filter) :
  wellFormed x = true ->
  exists extra, (f ++ [x])%list = (f ++ extra)%list
                /\ forallb wellFormed extra = true.
Proof. intros H. exists [x]. simpl. rewrite H. split; reflexivity. Qed.

Lemma appends_trans (f g h : list Filter) :
  (exists extra, g = (f ++ extra)%list /\ forallb wellFormed extra = true) ->
  (exists extra, h = (g ++ extra)%list /\ forallb wellFormed extra = true) ->
  exists extra, h = (f ++ extra)%list /\ forallb wellFormed extra = true.
Proof.
  intros (a & -> & Ha) (b & -> & Hb). exists (a ++ b)%list.
  rewrite <- app_assoc, forallb_app, Ha, Hb. split; reflexivity.
Qed.

Lemma lookup_outcome (store : Store.t) (matched : Result (list Z))
  (k : list Z -> M (TxQuery * list Filter)) (r : TxQuery * list Filter) :
  outcome (_ <- emit (Lookup store matched) ;; ids <- lift matched ;; k ids)
  = Ok r ->
  exists ids, matched = Ok ids /\ outcome (k ids) = Ok r.
Proof.
  repeat (progress push_bind). destruct matched as [ids |]; [| discriminate].
  intros H. exists ids. split; [reflexivity | exact H].
Qed.

Lemma addAccountFilter_roles_appends (E : Env.t)
  (roles : list (string * string)) :
  appendsWellFormed (addAccountFilter_roles E roles).
Proof.
  induction roles as [| [param key] rest IH]; intros q f q' f'; simpl.
  - intros [= <- <-]. apply appends_nothing.
  - destruct (truthy _); simpl; [| apply IH].
    destruct (_ =? 0)%nat; [apply IH |].
    destruct (10 <? _)%nat; [discriminate |].
    destruct (find _ _); [discriminate |].
    intros H. apply lookup_outcome in H as ([| i ids] & _ & H).
    + eapply IH, H.
    + eapply appends_trans; [| eapply IH, H].
      apply appends_one. reflexivity.
Qed.

Lemma addAssetFilter_roles_appends (E : Env.t)
  (roles : list (string * string)) :
  appendsWellFormed (addAssetFilter_roles E roles).
Proof.
  induction roles as [| [param key] rest IH]; intros q f q' f'; simpl.
  - intros [= <- <-]. apply appends_nothing.
  - destruct (truthy _); simpl; [| apply IH].
    destruct (_ =? 0)%nat; [apply IH |].
    destruct (10 <? _)%nat; [discriminate |].
    destruct (mapR _ _) as [fqans |]; [| discriminate].
    rewrite bind_lift_Ok.
    intros H. apply lookup_outcome in H as ([| i ids] & _ & H).
    + eapply IH, H.
    + eapply appends_trans; [| eapply IH, H].
      apply appends_one. reflexivity.
Qed.

Lemma pipeline_appends (E : Env.t) : Forall appendsWellFormed (pipeline E).
Proof.
  unfold pipeline. repeat apply Forall_cons; try apply Forall_nil;
    intros q f q' f'.
  - push_bind. destruct (addCursorFilter q); [| discriminate].
    intros [= <- <-]. apply appends_nothing.
  - destruct (addTsFilter E q) as [calls [q2 | err]];
      unfold bind, ret, outcome; cbn [fst snd]; [| discriminate].
    intros [= <- <-]. apply appends_nothing.
  - unfold addIdRangeFilter, outcome, ret. cbn [snd].
    destruct (IdConstraints.isEmpty (constraints q)) eqn:Hem;
      [intros [= <- <-]; apply appends_nothing |].
    destruct (IdConstraints.isUnfeasible (constraints q)) eqn:Hun;
      intros [= <- <-]; [apply appends_nothing |].
    apply appends_one. revert Hem Hun.
    unfold IdConstraints.isEmpty, IdConstraints.isUnfeasible,
      IdConstraints.resolve, wellFormed.
    destruct (IdConstraints.bottom _), (IdConstraints.top _);
      try discriminate; try reflexivity.
    intros _ ->. reflexivity.
  - push_bind. unfold addTypesFilter.
    destruct (truthy _); simpl;
      [| intros [= <- <-]; apply appends_nothing].
    destruct (30 <? _)%nat; [discriminate |].
    destruct (addTypes _ []) as [[| t st] |]; try discriminate;
      intros [= <- <-]; [apply appends_nothing |].
    apply appends_one. reflexivity.
  - apply addAccountFilter_roles_appends.
  - apply addAssetFilter_roles_appends.
  - push_bind. unfold addOfferFilter.
    destruct (truthy _); simpl;
      [| intros [= <- <-]; apply appends_nothing].
    destruct (10 <? _)%nat; [discriminate |].
    destruct (mapR _ _) as [[| o os] |]; try discriminate;
      intros [= <- <-]; [apply appends_nothing |].
    apply appends_one. reflexivity.
  - unfold addPoolFilter.
    destruct (truthy _); simpl;
      [| intros [= <- <-]; apply appends_nothing].
    destruct (10 <? _)%nat; [discriminate |].
    destruct (mapR _ _); [| discriminate]. rewrite bind_lift_Ok.
    intros H. apply lookup_outcome in H as ([| i ids] & _ & H);
      injection H as <- <-; [apply appends_nothing |].
    apply appends_one. reflexivity.
  - unfold addMemoFilter.
    destruct (truthy _); simpl;
      [| intros [= <- <-]; apply appends_nothing].
    destruct (_ =? 0)%nat; [intros [= <- <-]; apply appends_nothing |].
    destruct (10 <? _)%nat; [discriminate |].
    intros H. apply lookup_outcome in H as ([| i ids] & _ & H);
      injection H as <- <-; [apply appends_nothing |].
    apply appends_one. reflexivity.
Qed.

Lemma runPipeline_appends (steps : list Step) :
  Forall appendsWellFormed steps ->
  forall q f q' f',
    outcome (runPipeline steps q f) = Ok (Some (q', f')) ->
    exists extra, f' = (f ++ extra)%list /\ forallb wellFormed extra = true.
Proof.
  induction 1 as [| step rest Hstep _ IH]; intros q f q' f'; simpl.
  - intros [= <- <-]. apply appends_nothing.
  - rewrite outcome_bind.
    destruct (outcome (step q f)) as [[q1 f1] |] eqn:H1; [| discriminate].
    destruct (isUnfeasible q1); [discriminate |].
    intros H2. eapply appends_trans; [eapply Hstep, H1 | eapply IH, H2].
Qed.

Lemma searchAndFuse_trace (E : Env.t) (q : TxQuery) (filter : list Filter) :
  exists rest,
    trace (searchAndFuse E q filter)
    = ElasticSearch (buildQuery E q filter) :: rest
    /\ forall req, ~ In (ElasticSearch req) rest.
Proof.
  unfold searchAndFuse. cbv zeta. repeat (progress push_bind).
  destruct (Env.search E _) as [hits |];
    [| exists []; split; [reflexivity | intros req []]].
  repeat (progress push_bind).
  destruct (mapR hitId hits) as [[| id ids] |];
    try (exists []; split; [reflexivity | intros req []]).
  rewrite fetchLedgersInfo_eq.
  unfold both, bind, emit, lift, ret, outcome, trace. cbn [fst snd app].
  destruct (Env.fetchArchiveTransactions _ _ _ _);
    [destruct (await _) |]; cbn [fst snd app];
    eexists; (split; [reflexivity |]);
    intros req [H | [H | []]]; discriminate.
Qed.

(** X14. Every predicate of every search the query issues is well
    formed: a membership test has at least one value, a range has a bound
    and its bottom is not above its top. *)
Theorem search_predicates_wellFormed (E : Env.t) (q : TxQuery)
  (req : SearchRequest.t) :
  In (ElasticSearch req) (trace (toArray E q)) ->
  exists filter,
    SearchRequest.query req = bool_filter filter
    /\ forallb wellFormed filter = true.
Proof.
  intros Hin. apply toArray_trace in Hin.
  rewrite fetchData_searchAndFuse, trace_bind in Hin.
  destruct (runPipeline_spec E _ (pipeline_spec E) q []) as (Hev & _ & _).
  destruct (outcome (runPipeline (pipeline E) q []))
    as [[[q' filter] |] | err] eqn:Hrun.
  - apply in_app_or in Hin as [Hin | Hin].
    + destruct (pipelineCall_no_search _ req (Hev _ Hin) eq_refl).
    + destruct (searchAndFuse_trace E q' filter) as (rest & Htr & Hno).
      rewrite Htr in Hin. destruct Hin as [[= <-] | Hin];
        [| destruct (Hno _ Hin)].
      exists filter. split; [reflexivity |].
      destruct (runPipeline_appends _ (pipeline_appends E) _ _ _ _ Hrun)
        as (extra & -> & Hwf). exact Hwf.
  - cbn [ret trace fst] in Hin. rewrite app_nil_r in Hin.
    destruct (pipelineCall_no_search _ req (Hev _ Hin) eq_refl).
  - destruct (pipelineCall_no_search _ req (Hev _ Hin) eq_refl).
Qed.

(** ** The codes of the type step *)

Lemma typeMapping_inRange : forallb entryInRange (map snd typeMapping) = true.
Proof. reflexivity. Qed.

Lemma typeMapping_get_inRange (s : string) (e : TypeEntry) :
  typeMapping_get s = MOwn e -> entryInRange e = true.
Proof.
  unfold typeMapping_get.
  destruct (find _ typeMapping) as [kv |] eqn:Hf.
  - intros [= <-]. apply find_some in Hf as [Hin _].
    pose proof typeMapping_inRange as H. rewrite forallb_forall in H.
    apply H, in_map, Hin.
  - destruct (existsb _ _); discriminate.
Qed.

Lemma set_add_codes (st : list Term) (x : Term) :
  forallb codeInRange st = true -> codeInRange x = true ->
  forallb codeInRange (set_add Term_eqb st x) = true.
Proof.
  intros Hst Hx. unfold set_add. destruct (existsb _ _); [exact Hst |].
  rewrite forallb_app, Hst. simpl. rewrite Hx. reflexivity.
Qed.

Lemma fold_set_add_codes (codes : list Z) (st : list Term) :
  forallb codeInRange st = true -> forallb inRange codes = true ->
  forallb codeInRange
    (fold_left (fun st type => set_add Term_eqb st (TNum type)) codes st)
  = true.
Proof.
  revert st. induction codes as [| c codes IH]; intros st Hst Hc; simpl.
  - exact Hst.
  - simpl in Hc. apply andb_true_iff in Hc as [Hc1 Hc2].
    apply IH; [apply set_add_codes; assumption | exact Hc2].
Qed.

Lemma addType_codes (st st' : list Term) (value : Val) :
  forallb codeInRange st = true -> addType st value = Ok st' ->
  forallb codeInRange st' = true.
Proof.
  intros Hst. unfold addType.
  destruct value as [| s | n | l |]; try discriminate.
  - destruct (typeMapping_get s) as [| [c | codes] | name] eqn:Hget.
    + destruct (parseInt10 s) as [n |]; [| discriminate].
      destruct (inRange n) eqn:Hn; [| discriminate].
      intros [= <-]. apply set_add_codes; assumption.
    + intros [= <-]. apply set_add_codes; [assumption |].
      exact (typeMapping_get_inRange _ _ Hget).
    + intros [= <-]. apply fold_set_add_codes; [assumption |].
      exact (typeMapping_get_inRange _ _ Hget).
    + intros [= <-]. apply set_add_codes; [assumption | reflexivity].
  - destruct (inRange n) eqn:Hn; [| discriminate].
    intros [= <-]. apply set_add_codes; assumption.
Qed.

Lemma addTypes_codes (type : list Val) (st st' : list Term) :
  forallb codeInRange st = true -> addTypes type st = Ok st' ->
  forallb codeInRange st' = true.
Proof.
  revert st. induction type as [| v type IH]; intros st Hst; simpl.
  - intros [= <-]. exact Hst.
  - destruct (addType st v) as [st1 |] eqn:H1; [| discriminate].
    apply IH. eapply addType_codes; eassumption.
Qed.

(** X15. When the type step emits a predicate, its value list is not
    empty and every number in it is an operation code from 0 to 23. *)
Theorem addTypesFilter_codes (q : TxQuery) (filters filters' : list Filter) :
  addTypesFilter q filters = Ok filters' ->
  filters' = filters
  \/ exists codes,
       filters' = (filters ++ [terms "type" codes])%list
       /\ codes <> [] /\ forallb codeInRange codes = true.
Proof.
  unfold addTypesFilter.
  destruct (truthy _); simpl; [| intros [= <-]; left; reflexivity].
  destruct (30 <? _)%nat; [discriminate |].
  destruct (addTypes _ []) as [[| t st] |] eqn:Hadd; try discriminate.
  - intros [= <-]; left; reflexivity.
  - intros [= <-]; right. exists (t :: st).
    split; [reflexivity | split; [discriminate |]].
    eapply addTypes_codes; [| exact Hadd]. reflexivity.
Qed.

(** ** Request parameters *)

Lemma get_remove (o : Obj) (k k' : string) :
  get (remove o k) k' = if (k =? k')%string then VUndefined else get o k'.
Proof.
  unfold get, remove. induction o as [| [k1 v1] o IH]; simpl.
  - destruct (k =? k')%string; reflexivity.
  - destruct (String.eqb_spec k1 k) as [-> | Hk]; simpl.
    + rewrite IH. destruct (k =? k')%string; reflexivity.
    + destruct (String.eqb_spec k1 k') as [-> | Hk']; simpl.
      * destruct (String.eqb_spec k k'); [congruence | reflexivity].
      * exact IH.
Qed.

Lemma hasKey_remove (o : Obj) (k k' : string) :
  hasKey (remove o k) k' = hasKey o k' && negb (k =? k')%string.
Proof.
  unfold hasKey, remove. induction o as [| [k1 v1] o IH]; simpl.
  - reflexivity.
  - destruct (String.eqb_spec k1 k) as [-> | Hk]; simpl.
    + rewrite IH. destruct (String.eqb_spec k k'); simpl;
        [rewrite andb_false_r | rewrite andb_true_r]; reflexivity.
    + rewrite IH. destruct (String.eqb_spec k1 k') as [-> | Hk']; simpl.
      * destruct (String.eqb_spec k k'); [congruence | reflexivity].
      * reflexivity.
Qed.

Lemma NoDup_keys_remove (o : Obj) (k : string) :
  NoDup (map fst o) -> NoDup (map fst (remove o k)).
Proof.
  unfold remove. induction o as [| [k1 v1] o IH]; simpl; intros Hnd.
  - constructor.
  - inversion Hnd as [| ? ? Hnin Hnd']; subst.
    destruct (negb _); simpl; [| exact (IH Hnd')].
    constructor; [| exact (IH Hnd')].
    intros Hin. apply Hnin. apply in_map_iff in Hin as (kv & <- & Hkv).
    apply filter_In in Hkv as [Hkv _]. apply in_map, Hkv.
Qed.

Lemma get_set (o : Obj) (k k' : string) (v : Val) :
  get (set o k v) k' = if (k =? k')%string then v else get o k'.
Proof.
  unfold get. induction o as [| [k1 v1] o IH]; simpl.
  - destruct (k =? k')%string; reflexivity.
  - destruct (String.eqb_spec k1 k) as [-> | Hk]; simpl.
    + destruct (k =? k')%string; reflexivity.
    + destruct (String.eqb_spec k1 k') as [-> | Hk']; simpl.
      * destruct (String.eqb_spec k k'); [congruence | reflexivity].
      * exact IH.
Qed.

Lemma hasKey_In (o : Obj) (k : string) :
  hasKey o k = true -> In k (map fst o).
Proof.
  unfold hasKey. intros H. apply existsb_exists in H as (kv & Hin & Heq).
  apply String.eqb_eq in Heq. subst. apply in_map, Hin.
Qed.

Lemma get_spread (a b : Obj) (k : string) :
  NoDup (map fst b) ->
  get (spread a b) k = if hasKey b k then get b k else get a k.
Proof.
  unfold spread. revert a. induction b as [| [k1 v1] b IH]; intros a Hnd.
  - reflexivity.
  - inversion Hnd as [| ? ? Hnin Hnd']; subst. simpl fold_left.
    rewrite (IH _ Hnd'), get_set. unfold hasKey at 2, get at 3. simpl.
    destruct (String.eqb_spec k1 k) as [-> | Hk]; simpl.
    + destruct (hasKey b k) eqn:Hb; [| reflexivity].
      destruct (Hnin (hasKey_In _ _ Hb)).
    + reflexivity.
Qed.

(** X16. A constructed query starts with an empty resolver and a clear
    flag, keeps the raw cursor and the normalized limit, and its
    parameters are the query object without [order], [cursor] and
    [limit]: every other key reads as in the query object. *)
Theorem constructor_state (E : Env.t) (network' basePath' : string)
  (query : Obj) (q : TxQuery) :
  constructor E network' basePath' query = Ok q ->
  network q = network' /\ basePath q = basePath'
  /\ cursor q = get query "cursor"
  /\ limit q = Env.normalizeLimit E (get query "limit")
  /\ constraints q = IdConstraints.empty /\ isUnfeasible q = false
  /\ forall k,
       get (params q) k
       = if ((k =? "order") || (k =? "cursor") || (k =? "limit"))%string
         then VUndefined else get query k.
Proof.
  unfold constructor.
  destruct (Env.validateNetwork E network'); [| discriminate].
  destruct (parseOrder _) as [o |]; [| discriminate].
  intros [= <-]. cbn [network basePath cursor limit constraints isUnfeasible
                      params].
  repeat (split; [reflexivity |]).
  intros k. rewrite !get_remove, !(String.eqb_sym k).
  destruct ("limit" =? k)%string, ("cursor" =? k)%string,
    ("order" =? k)%string; reflexivity.
Qed.

(** X17. For a constructed query (the keys of the query object being
    distinct) the parameters handed to the envelope builder carry the
    validated order, the raw cursor and the normalized limit, and every
    other parameter as supplied; a supplied [sort] replaces the fixed
    ["id"]. *)
Theorem pagedParams_echo (E : Env.t) (network' basePath' : string)
  (query : Obj) (q : TxQuery) :
  constructor E network' basePath' query = Ok q ->
  NoDup (map fst query) ->
  get (pagedParams q) "order" = VStr (orderName (order q))
  /\ get (pagedParams q) "cursor" = get query "cursor"
  /\ get (pagedParams q) "limit"
     = VNum (Env.normalizeLimit E (get query "limit"))
  /\ get (pagedParams q) "sort"
     = (if hasKey query "sort" then get query "sort" else VStr "id")
  /\ forall k,
       k <> "sort" -> k <> "order" -> k <> "cursor" -> k <> "limit" ->
       get (pagedParams q) k = get query k.
Proof.
  unfold constructor.
  destruct (Env.validateNetwork E network'); [| discriminate].
  destruct (parseOrder _) as [o |]; [| discriminate].
  intros [= <-] Hnd. unfold pagedParams.
  cbn [order cursor limit params].
  assert (Hnd' : NoDup (map fst (remove (remove (remove query "order")
                                           "cursor") "limit")))
    by (repeat apply NoDup_keys_remove; exact Hnd).
  repeat split.
  - rewrite (get_spread _ _ _ Hnd'), !hasKey_remove.
    cbn. rewrite !andb_false_r. reflexivity.
  - rewrite (get_spread _ _ _ Hnd'), !hasKey_remove.
    cbn. rewrite !andb_false_r. reflexivity.
  - rewrite (get_spread _ _ _ Hnd'), !hasKey_remove.
    cbn. rewrite !andb_false_r. reflexivity.
  - rewrite (get_spread _ _ _ Hnd'), !hasKey_remove, !get_remove.
    cbn. rewrite !andb_true_r. reflexivity.
  - intros k Hs Ho Hc Hl.
    rewrite (get_spread _ _ _ Hnd'), !hasKey_remove, !get_remove.
    apply String.eqb_neq in Hs, Ho, Hc, Hl.
    rewrite !(String.eqb_sym _ k), Ho, Hc, Hl. cbn [negb]. rewrite !andb_true_r.
    destruct (hasKey query k) eqn:Hk; [reflexivity |].
    unfold get at 1. cbn [find fst snd]. rewrite !(String.eqb_sym _ k), Hs, Ho, Hc, Hl.
    unfold get, hasKey in *. 
    destruct (find _ query) as [kv |] eqn:Hf; [| reflexivity].
    apply find_some in Hf as [Hin Heq].
    assert (existsb (fun kv => (fst kv =? k)%string) query = true)
      by (apply existsb_exists; exists kv; split; assumption).
    congruence.
Qed.

(** ** The account step validates before it looks up *)

(** X18. In the account step, more than 10 values for [account], or up
    to 10 values one of which is not a valid address, fail with a
    validation failure on [account] before the account store is asked. *)
Theorem account_role_validated_first (E : Env.t) (q : TxQuery)
  (f : list Filter) :
  truthy (get (params q) "account") = true ->
  ((10 < List.length (enforceArray (get (params q) "account")))%nat ->
   addAccountFilter E q f
   = ([], Throw (ValidationError "account" "Too many account conditions.")))
  /\ (forall address,
      (List.length (enforceArray (get (params q) "account")) <= 10)%nat ->
      In address (enforceArray (get (params q) "account")) ->
      Env.isValidEd25519PublicKey E address = false ->
      exists message,
        addAccountFilter E q f
        = ([], Throw (ValidationError "account" message))).
Proof.
  intros Ht. unfold addAccountFilter, accountRoles.
  cbn [addAccountFilter_roles]. rewrite Ht. cbn [negb]. split.
  - intros Hlen.
    destruct (Nat.eqb_spec (List.length (enforceArray (get (params q) "account"))) 0);
      [lia |].
    apply Nat.ltb_lt in Hlen. rewrite Hlen. reflexivity.
  - intros address Hlen Hin Hinv.
    destruct (Nat.eqb_spec (List.length (enforceArray (get (params q) "account"))) 0)
      as [H0 | _].
    + apply length_zero_iff_nil in H0. rewrite H0 in Hin. destruct Hin.
    + destruct (Nat.ltb_spec 10
                  (List.length (enforceArray (get (params q) "account"))));
        [lia |].
      destruct (find _ _) as [bad |] eqn:Hf; [eexists; reflexivity |].
      pose proof (find_none _ _ Hf address Hin) as Hn.
      cbv beta in Hn. rewrite Hinv in Hn. discriminate Hn.
Qed.

(** ** How many calls a query can cost *)

Lemma cost_lookup (store : Store.t) (matched : Result (list Z))
  (k : list Z -> M (TxQuery * list Filter)) (n : nat) :
  (forall ids, (List.length (trace (k ids)) <= n)%nat) ->
  (List.length (trace (_ <- emit (Lookup store matched) ;;
                       ids <- lift matched ;; k ids)) <= S n)%nat.
Proof.
  intros Hk. destruct matched as [ids |]; repeat (progress push_bind);
    simpl; [specialize (Hk ids) |]; lia.
Qed.

Lemma addAccountFilter_roles_cost (E : Env.t) (roles : list (string * string)) :
  stepCost (List.length roles) (addAccountFilter_roles E roles).
Proof.
  induction roles as [| [param key] rest IH]; intros q f; simpl.
  - lia.
  - destruct (truthy _); simpl; [| specialize (IH q f); lia].
    destruct (_ =? 0)%nat; [specialize (IH q f); lia |].
    destruct (10 <? _)%nat; [simpl; lia |].
    destruct (find _ _); [simpl; lia |].
    apply cost_lookup. intros [| i ids]; apply IH.
Qed.

Lemma addAssetFilter_roles_cost (E : Env.t) (roles : list (string * string)) :
  stepCost (List.length roles) (addAssetFilter_roles E roles).
Proof.
  induction roles as [| [param key] rest IH]; intros q f; simpl.
  - lia.
  - destruct (truthy _); simpl; [| specialize (IH q f); lia].
    destruct (_ =? 0)%nat; [specialize (IH q f); lia |].
    destruct (10 <? _)%nat; [simpl; lia |].
    destruct (mapR _ _); [| simpl; lia]. rewrite bind_lift_Ok.
    apply cost_lookup. intros [| i ids]; apply IH.
Qed.

Lemma runPipeline_cost (steps : list Step) (costs : list nat) :
  Forall2 stepCost costs steps ->
  forall q f,
    (List.length (trace (runPipeline steps q f)) <= list_sum costs)%nat.
Proof.
  induction 1 as [| n step costs steps Hstep _ IH]; intros q f; simpl.
  - lia.
  - rewrite trace_bind. specialize (Hstep q f).
    destruct (outcome (step q f)) as [[q1 f1] |]; [| lia].
    rewrite length_app. destruct (isUnfeasible q1); simpl;
      [| specialize (IH q1 f1)]; lia.
Qed.

(** The timestamp step resolves each of its two bounds at most once. *)
Lemma addTsFilter_cost (E : Env.t) (q : TxQuery) :
  (List.length (trace (addTsFilter E q)) <= 2)%nat.
Proof.
  rewrite addTsFilter_eq. unfold trace, resolveCalls. cbn [fst].
  rewrite length_app.
  destruct (get (params q) "to"), (get (params q) "from");
    cbn [List.length]; lia.
Qed.

Lemma pipeline_cost (E : Env.t) :
  Forall2 stepCost [0; 2; 0; 0; 3; 3; 0; 1; 1]%nat (pipeline E).
Proof.
  unfold pipeline. repeat apply Forall2_cons; try apply Forall2_nil;
    intros q f.
  - destruct (addCursorFilter q); simpl; lia.
  - pose proof (addTsFilter_cost E q) as Hc. revert Hc.
    destruct (addTsFilter E q) as [calls [q2 | err]];
      unfold bind, ret, trace; cbn [fst snd]; rewrite ?app_nil_r;
      intros Hc; exact Hc.
  - simpl; lia.
  - destruct (addTypesFilter q f); simpl; lia.
  - apply (addAccountFilter_roles_cost E accountRoles).
  - apply (addAssetFilter_roles_cost E assetRoles).
  - destruct (addOfferFilter E q f); simpl; lia.
  - unfold addPoolFilter. destruct (truthy _); simpl; [| lia].
    destruct (10 <? _)%nat; [simpl; lia |].
    destruct (mapR _ _); [| simpl; lia]. rewrite bind_lift_Ok.
    apply (cost_lookup _ _ _ 0). intros [| i ids]; simpl; lia.
  - unfold addMemoFilter. destruct (truthy _); simpl; [| lia].
    destruct (_ =? 0)%nat; [simpl; lia |].
    destruct (10 <? _)%nat; [simpl; lia |].
    apply (cost_lookup _ _ _ 0). intros [| i ids]; simpl; lia.
Qed.

Lemma lookups_hold_no_search (l : list Event) :
  (forall e, In e l -> pipelineCall e) ->
  filter isSearch l = [].
Proof.
  induction l as [| e l IH]; intros Hev; [reflexivity |].
  simpl.
  destruct (Hev e (or_introl eq_refl)) as [(st & r & ->) | (t & r & ->)];
    simpl; apply IH; intros e' He'; apply Hev; right; exact He'.
Qed.

(** X19. A query issues at most 13 calls in all (2 timestamp
    resolutions, 8 lookups, the search, the archive fetch and the ledger
    fetch) and at most one search. *)
Theorem toArray_cost (E : Env.t) (q : TxQuery) :
  (List.length (trace (toArray E q)) <= 13)%nat
  /\ (List.length (filter isSearch (trace (toArray E q))) <= 1)%nat.
Proof.
  assert (Hf : (List.length (trace (fetchData E q)) <= 13)%nat
               /\ (List.length (filter isSearch (trace (fetchData E q)))
                   <= 1)%nat).
  { rewrite fetchData_searchAndFuse, trace_bind.
    pose proof (runPipeline_cost _ _ (pipeline_cost E) q []) as Hc.
    change (list_sum [0; 2; 0; 0; 3; 3; 0; 1; 1]%nat) with 10%nat in Hc.
    destruct (runPipeline_spec E _ (pipeline_spec E) q []) as (Hev & _ & _).
    pose proof (lookups_hold_no_search _ Hev) as Hns.
    destruct (outcome (runPipeline (pipeline E) q []))
      as [[[q' filter'] |] |].
    - rewrite filter_app, Hns, length_app.
      assert (Htail : (List.length (trace (searchAndFuse E q' filter')) <= 3)%nat
                      /\ (List.length (filter isSearch
                                         (trace (searchAndFuse E q' filter')))
                          <= 1)%nat).
      { unfold searchAndFuse. cbv zeta. repeat (progress push_bind).
        destruct (Env.search E _) as [hits |]; [| simpl; lia].
        repeat (progress push_bind).
        destruct (mapR hitId hits) as [[| id ids] |]; try (simpl; lia).
        rewrite fetchLedgersInfo_eq.
        unfold both, bind, emit, lift, ret, outcome, trace.
        cbn [fst snd app].
        destruct (Env.fetchArchiveTransactions _ _ _ _);
          [destruct (await _) |]; simpl; lia. }
      destruct Htail as [Ht1 Ht2]. cbn [app List.length]. split; [| exact Ht2].
      exact (Nat.add_le_mono _ _ _ _ Hc Ht1).
    - unfold trace in *. cbn [ret fst].
      rewrite app_nil_r, Hns. split; [lia | cbn [List.length]; lia].
    - rewrite Hns. split; [lia | cbn [List.length]; lia]. }
  unfold toArray. destruct (_ || _); [simpl; lia |].
  rewrite trace_bind. destruct (outcome (fetchData E q));
    cbn [ret trace fst]; rewrite ?app_nil_r; exact Hf.
Qed.

(** ** The theorems above at concrete requests *)

Lemma cursor_only_request_witness :
  exists rest,
    trace (toArray Demo.env (Demo.query asc (VStr "1000") []))
    = ElasticSearch
        (buildQuery Demo.env (Demo.query asc (VStr "1000") [])
           [range "id" (Some 1001, None)]) :: rest.
Proof.
  apply (cursor_only_request Demo.env (Demo.query asc (VStr "1000") [])
           "1000" 1000);
    [reflexivity | reflexivity | reflexivity | reflexivity | discriminate
    | reflexivity | lia].
Defined.

Lemma bare_request_witness :
  exists rest,
    trace (toArray Demo.env (Demo.query desc VUndefined []))
    = ElasticSearch (buildQuery Demo.env (Demo.query desc VUndefined []) [])
      :: rest.
Proof.
  apply (bare_request Demo.env (Demo.query desc VUndefined []));
    reflexivity.
Defined.

Lemma invalid_cursor_precedes_calls_witness :
  exists message,
    toArray Demo.env
      (Demo.query desc (VStr "abc") [("account", VStr Demo.knownAccount)])
    = ([], Throw (ValidationError "cursor" message)).
Proof.
  apply (invalid_cursor_precedes_calls Demo.env
           (Demo.query desc (VStr "abc")
              [("account", VStr Demo.knownAccount)]));
    reflexivity.
Defined.





Lemma fetchTx_failures_witness :
  fetchTx Demo.env "public" (VNum 5)
  = ([], Throw (ValidationError "id" "Invalid transaction id or hash"))
  /\ fetchTx Demo.env "mars" (VStr "429496729601")
     = ([], Throw (ValidationError "network" "Unknown network"))
  /\ fetchTx Demo.env "public" (VStr "no such id")
     = ([ArchiveFetchOne "no such id"],
        Throw (NotFound
                 "Transaction no such id not found on the public ledger")).
Proof.
  split; [| split].
  - apply (fetchTx_failures Demo.env "public" (VNum 5)). discriminate.
  - destruct (fetchTx_failures Demo.env "mars" (VStr "429496729601"))
      as (_ & H & _).
    apply (H "429496729601"); [reflexivity | simpl; lia | reflexivity].
  - destruct (fetchTx_failures Demo.env "public" (VStr "no such id"))
      as (_ & _ & H).
    apply (H "no such id");
      [reflexivity | simpl; lia | reflexivity | reflexivity].
Defined.

Lemma fetchTx_present_witness :
  trace (fetchTx Demo.env "public" (VStr "429496729601"))
  = [ArchiveFetchOne "429496729601"; LedgersFetch [VNum 429496729601]].
Proof.
  apply (fetchTx_present Demo.env "public" "429496729601"
           (Demo.tx 429496729601));
    [simpl; lia | reflexivity | reflexivity].
Defined.

Lemma fetchData_no_hits_witness :
  fetchData (withSearch Demo.env (fun _ => Ok []))
    (Demo.query desc VUndefined [])
  = ([ElasticSearch
        (buildQuery (withSearch Demo.env (fun _ => Ok []))
           (Demo.query desc VUndefined []) [])],
     Ok []).
Proof.
  apply (fetchData_no_hits (withSearch Demo.env (fun _ => Ok []))
           (Demo.query desc VUndefined []) (Demo.query desc VUndefined []) []);
    reflexivity.
Defined.

Lemma fetchData_fusion_witness :
  outcome (fetchData Demo.env (Demo.query desc VUndefined []))
  = Ok (map (fun tx =>
               prepareResponseEntry Demo.env tx
                 (Some {| Ledger._id := 100; Ledger.ts := 1700000000 |}) true)
          [Demo.tx 429496729601; Demo.tx 429496729600]).
Proof.
  rewrite (fetchData_fusion Demo.env (Demo.query desc VUndefined [])
             (Demo.query desc VUndefined []) []
             ["429496729601"; "429496729600"]
             [429496729601; 429496729600]
             [Demo.tx 429496729601; Demo.tx 429496729600]
             [{| Ledger._id := 100; Ledger.ts := 1700000000 |}]);
    [reflexivity | reflexivity | reflexivity | reflexivity | discriminate
    | reflexivity | reflexivity].
Defined.

Lemma toArray_list_entries_witness :
  exists transactions,
    Forall2 (listEntryOf Demo.env) transactions
      (map (fun tx =>
              prepareResponseEntry Demo.env tx
                (Some {| Ledger._id := 100; Ledger.ts := 1700000000 |}) true)
         [Demo.tx 429496729601; Demo.tx 429496729600]).
Proof.
  apply (toArray_list_entries Demo.env (Demo.query desc VUndefined [])
           "/tx" (pagedParams (Demo.query desc VUndefined []))).
  reflexivity.
Defined.

Lemma search_predicates_wellFormed_witness :
  exists filter,
    SearchRequest.query
      (buildQuery Demo.env
         (Demo.query asc (VStr "1000") [("type", VStr "payment")])
         [range "id" (Some 1001, None); terms "type" [TNum 1]])
    = bool_filter filter
    /\ forallb wellFormed filter = true.
Proof.
  apply (search_predicates_wellFormed Demo.env
           (Demo.query asc (VStr "1000") [("type", VStr "payment")])).
  left. reflexivity.
Defined.

Lemma addTypesFilter_codes_witness :
  [terms "type" [TNum 3; TNum 4; TNum 12; TNum 22; TNum 23]] = []
  \/ exists codes,
       [terms "type" [TNum 3; TNum 4; TNum 12; TNum 22; TNum 23]]
       = ([] ++ [terms "type" codes])%list
       /\ codes <> [] /\ forallb codeInRange codes = true.
Proof.
  apply (addTypesFilter_codes
           (Demo.query desc VUndefined [("type", VStr "dex")]) []).
  reflexivity.
Defined.

Lemma constructor_state_witness :
  get (params (Demo.query asc (VStr "7") [("memo", VStr "hello")])) "memo"
  = VStr "hello"
  /\ get (params (Demo.query asc (VStr "7") [("memo", VStr "hello")])) "cursor"
     = VUndefined.
Proof.
  destruct (constructor_state Demo.env "public" "/tx"
              [("order", VStr "asc"); ("cursor", VStr "7");
               ("memo", VStr "hello")]
              (Demo.query asc (VStr "7") [("memo", VStr "hello")]) eq_refl)
    as (_ & _ & _ & _ & _ & _ & H).
  split; [exact (H "memo") | exact (H "cursor")].
Defined.

Lemma pagedParams_echo_witness :
  get (pagedParams
         (Demo.query asc VUndefined
            [("sort", VStr "hash"); ("memo", VStr "hello")])) "sort"
  = VStr "hash".
Proof.
  destruct (pagedParams_echo Demo.env "public" "/tx"
              [("order", VStr "asc"); ("sort", VStr "hash");
               ("memo", VStr "hello")]
              (Demo.query asc VUndefined
                 [("sort", VStr "hash"); ("memo", VStr "hello")]) eq_refl)
    as (_ & _ & _ & H & _).
  - repeat constructor; simpl; intuition discriminate.
  - exact H.
Defined.

Lemma account_role_validated_first_witness :
  addAccountFilter Demo.env
    (Demo.query desc VUndefined
       [("account", VArr (repeat (VStr Demo.knownAccount) 11))]) []
  = ([], Throw (ValidationError "account" "Too many account conditions.")).
Proof.
  apply (account_role_validated_first Demo.env
           (Demo.query desc VUndefined
              [("account", VArr (repeat (VStr Demo.knownAccount) 11))]) []);
    [reflexivity | simpl; lia].
Defined.
